(** * viddown: format normalizer, format ranker, download orchestrator and
      download handler of the Go backend, embedded in Rocq.

    Sources embedded here:
    - [services.YtDlpService.parseFormats], [GetBestFormats],
      [extractBitrate] and [DownloadToFile] (the services part of
      backend/config/config.go);
    - [handlers.DownloadHandler.ServeHTTP] (backend/handlers/download.go).

    Go strings are byte sequences, so they are modelled by [string] (a list
    of 8-bit characters); the Cyrillic labels of the ranker are their UTF-8
    bytes.  Go [int] and [int64] are modelled by [Z]; the one arithmetic
    operation of the code that can overflow (the sum of two sizes) has its
    wrap-around written out.  A finite [float64] is a rational number and is
    modelled by [Q]. *)

From Stdlib Require Import ZArith QArith.QArith_base String Ascii List DecimalString Lia.
From stdpp Require Import base option list gmap strings.
From Stdlib Require Import DecimalPos.

Local Open Scope string_scope.
Local Open Scope Z_scope.
Local Open Scope list_scope.

(** String concatenation unfolds on a constructor, as list concatenation does. *)
#[local] Arguments String.append !_ _ / : simpl nomatch.

(** ** Strings: the parts of Go's [strings], [strconv] and [fmt] in use *)

Module GoString.

(** [strings.HasPrefix(s, prefix)]. *)
Fixpoint HasPrefix (s prefix : string) : bool :=
  match prefix, s with
  | EmptyString, _ => true
  | String _ _, EmptyString => false
  | String p prefix', String c s' => Ascii.eqb c p && HasPrefix s' prefix'
  end.

(** [strings.HasSuffix(s, suffix)]:
    [len(s) >= len(suffix) && s[len(s)-len(suffix):] == suffix]. *)
Definition HasSuffix (s suffix : string) : bool :=
  (String.length suffix <=? String.length s)%nat
  && String.eqb
       (String.substring (String.length s - String.length suffix)
                         (String.length suffix) s)
       suffix.

(** [strings.TrimSuffix(s, suffix)]. *)
Definition TrimSuffix (s suffix : string) : string :=
  if HasSuffix s suffix
  then String.substring 0 (String.length s - String.length suffix) s
  else s.

(** [strings.Contains(s, substr)] for a one-byte [substr]. *)
Fixpoint ContainsByte (s : string) (b : ascii) : bool :=
  match s with
  | EmptyString => false
  | String c s' => Ascii.eqb c b || ContainsByte s' b
  end.

(** [strings.SplitN(s, sep, 2)] for a one-byte [sep]: the text before the
    first separator and the text after it, or [s] alone. *)
Fixpoint SplitN2 (s : string) (sep : ascii) : list string :=
  match s with
  | EmptyString => [EmptyString]
  | String c s' =>
      if Ascii.eqb c sep then [EmptyString; s']
      else match SplitN2 s' sep with
           | hd :: tl => String c hd :: tl
           | [] => [String c EmptyString]
           end
  end.

(** [strconv.Itoa] and the verb [%d]. *)
Definition Itoa (z : Z) : string := NilZero.string_of_int (Z.to_int z).

Definition min_int64 : Z := - 2 ^ 63.
Definition max_int64 : Z := 2 ^ 63 - 1.

(** Two's complement wrap-around of [int64] arithmetic. *)
Definition wrap64 (z : Z) : Z := (z + 2 ^ 63) mod 2 ^ 64 - 2 ^ 63.

Definition digit_of (c : ascii) : option Z :=
  let n := Z.of_nat (nat_of_ascii c) in
  if ((48 <=? n) && (n <=? 57))%Z then Some (n - 48) else None.

Fixpoint parse_digits (s : string) (acc : Z) : option Z :=
  match s with
  | EmptyString => Some acc
  | String c s' =>
      match digit_of c with
      | Some d => parse_digits s' (10 * acc + d)
      | None => None
      end
  end.

(** [strconv.Atoi]: an optional sign, then one or more decimal digits; a
    value outside [int64] is an error ([None]). *)
Definition Atoi (s : string) : option Z :=
  let '(neg, body) :=
    match s with
    | String "+" r => (false, r)
    | String "-" r => (true, r)
    | _ => (false, s)
    end in
  match body with
  | EmptyString => None
  | _ =>
      match parse_digits body 0 with
      | Some n =>
          let v := if neg then - n else n in
          if ((min_int64 <=? v) && (v <=? max_int64))%Z then Some v else None
      | None => None
      end
  end.

(** Rounding to the nearest integer, ties to even: what the verb [%.0f]
    does to the exact decimal expansion of a [float64]. *)
Definition round_half_even (x : Q) : Z :=
  let n := Qnum x in
  let d := Z.pos (Qden x) in
  let q := n / d in
  let r := n mod d in
  match 2 * r ?= d with
  | Lt => q
  | Gt => q + 1
  | Eq => if Z.even q then q else q + 1
  end.

(** The verb [%.0f]. *)
Definition FormatFloat0 (x : Q) : string :=
  if (Qnum x <? 0)%Z
  then "-" +:+ Itoa (round_half_even (Qopp x))
  else Itoa (round_half_even x).

End GoString.

Import GoString.

(** ** Data model *)

(** [ytdlpFormat]: one raw encoding reported by the extractor.  The fields
    carry the prefix [yt] because [Format] has an [Ext] of its own. *)
Record ytdlpFormat : Set := mkYtdlpFormat {
  ytFormatID : string;
  ytExt : string;
  ytResolution : string;
  ytVCodec : string;
  ytACodec : string;
  ytFilesize : Z;
  ytABR : Q;
  ytHeight : Z;
  ytFormatNote : string
}.

(** [Format]: a normalized descriptor, also the shape of a curated offer.
    The Go field [Type] is [Type_] here. *)
Record Format : Set := mkFormat {
  ID : string;
  Type_ : string;
  Quality : string;
  Ext : string;
  Size : Z
}.

(** ** Format normalizer: [parseFormats] *)

(** What one iteration of the loop decides before the duplicate check: the
    kind and the quality label, or which [continue] is taken. *)
Inductive verdict : Set :=
| Keep (formatType quality : string)
| SkipNoID
| SkipContainer
| SkipNoQuality
| SkipNoTrack.

Definition classify (f : ytdlpFormat) : verdict :=
  if String.eqb (ytFormatID f) "" then SkipNoID
  else if String.eqb (ytVCodec f) "none" && negb (String.eqb (ytACodec f) "none")
  then Keep "audio"
            (if (0 <? Qnum (ytABR f))%Z
             then FormatFloat0 (ytABR f) +:+ "kbps"
             else "audio")
  else if negb (String.eqb (ytVCodec f) "none")
  then if negb (String.eqb (ytExt f) "mp4") then SkipContainer
       else if (0 <? ytHeight f)%Z then Keep "video" (Itoa (ytHeight f) +:+ "p")
       else if negb (String.eqb (ytResolution f) "")
               && negb (String.eqb (ytResolution f) "audio only")
       then Keep "video" (ytResolution f)
       else SkipNoQuality
  else SkipNoTrack.

(** [fmt.Sprintf("%s-%s-%s", formatType, quality, f.Ext)]. *)
Definition dedupKey (formatType quality ext : string) : string :=
  formatType +:+ "-" +:+ quality +:+ "-" +:+ ext.

(** The loop body, on the pair of the locals [seen] and [formats].  A key
    that is absent from a Go map reads as [false]. *)
Definition parseStep (st : gmap string bool * list Format) (f : ytdlpFormat)
  : gmap string bool * list Format :=
  match classify f with
  | Keep formatType quality =>
      let key := dedupKey formatType quality (ytExt f) in
      if default false (st.1 !! key) then st
      else (<[key := true]> st.1,
            st.2 ++ [ {| ID := ytFormatID f; Type_ := formatType;
                         Quality := quality; Ext := ytExt f;
                         Size := ytFilesize f |} ])
  | _ => st
  end.

Definition parseFormats (ytFormats : list ytdlpFormat) : list Format :=
  (fold_left parseStep ytFormats (∅, [])).2.

(** ** Format ranker: [GetBestFormats] *)

Definition extractBitrate (quality : string) : Z :=
  match Atoi (TrimSuffix quality "kbps") with
  | Some bitrate => bitrate
  | None => 0
  end.

(** The body of the first loop; [bestAudio] is a pointer into [formats],
    which is never written, so the pointed-to value stands for it. *)
Definition pickAudio (bestAudio : option Format) (f : Format) : option Format :=
  if String.eqb (Type_ f) "audio"
  then match bestAudio with
       | None => Some f
       | Some b =>
           if extractBitrate (Quality b) <? extractBitrate (Quality f)
           then Some f
           else bestAudio
       end
  else bestAudio.

Definition findBestAudio (formats : list Format) : option Format :=
  fold_left pickAudio formats None.

Definition resolutions : list Z := [360; 480; 720; 1080].

Definition resLabels : gmap Z string :=
  {[ 360 := "360p"; 480 := "480p"; 720 := "720p HD"; 1080 := "1080p Full HD" ]}.

(** [resLabels[res]]: the empty string for a key that is absent. *)
Definition resLabel (res : Z) : string := default "" (resLabels !! res).

Definition bestAudioOffer (a : Format) : Format :=
  {| ID := ID a; Type_ := "audio";
     Quality := "Лучшее аудио (" +:+ Quality a +:+ ")";
     Ext := Ext a; Size := Size a |}.

Definition mergedOffer (res : Z) (f a : Format) : Format :=
  {| ID := ID f +:+ "+" +:+ ID a; Type_ := "video";
     Quality := resLabel res +:+ " (видео + аудио)";
     Ext := "mp4"; Size := wrap64 (Size f + Size a) |}.

Definition videoOnlyOffer (res : Z) (f : Format) : Format :=
  {| ID := ID f; Type_ := "video_only";
     Quality := resLabel res +:+ " (только видео)";
     Ext := Ext f; Size := Size f |}.

(** The inner loop for one tier: the first matching format appends its
    offers and breaks. *)
Fixpoint scanTier (res : Z) (bestAudio : option Format)
         (formats : list Format) (best : list Format) : list Format :=
  match formats with
  | [] => best
  | f :: rest =>
      if String.eqb (Type_ f) "video" && HasPrefix (Quality f) (Itoa res)
      then (match bestAudio with
            | Some a => best ++ [mergedOffer res f a]
            | None => best
            end) ++ [videoOnlyOffer res f]
      else scanTier res bestAudio rest best
  end.

Definition GetBestFormats (formats : list Format) : list Format :=
  let bestAudio := findBestAudio formats in
  let best := match bestAudio with
              | Some a => [bestAudioOffer a]
              | None => []
              end in
  fold_left (fun best res => scanTier res bestAudio formats best)
            resolutions best.

(** ** Download orchestrator: [DownloadToFile] *)

Module Orchestrator.

(** What [cmd.Output()] reports: the captured standard output, an
    [*exec.ExitError] with its captured [Stderr], or another error. *)
Inductive cmdResult : Set :=
| CmdOk (stdout : string)
| CmdExitError (stderr : string)
| CmdOtherError (msg : string).

(** The collaborators of one call: the validator, the clock, the
    [path/filepath] functions, the subprocess and the file system.  Each
    is consulted at most once per call, so a function of its arguments
    stands for it. *)
Record world : Type := mkWorld {
  ValidateURL : string -> option string;         (* [Some e]: error [e] *)
  UnixNano : Z;
  Join : string -> string -> string;
  Base : string -> string;
  Output : string -> list string -> cmdResult;
  Glob : string -> option (list string);         (* [None]: error *)
  Stat : string -> Z + string                    (* size, or an error *)
}.

(** The three results of the Go function and the files it removed. *)
Record outcome : Set := mkOutcome {
  filePath : string;
  filename : string;
  err : option string;
  removed : list string
}.

Definition fail (msg : string) (rm : list string) : outcome :=
  {| filePath := ""; filename := ""; err := Some msg; removed := rm |}.

(** The arguments of the subprocess. *)
Definition downloadArgs (w : world) (url formatID tempDir : string)
  : list string :=
  let timestamp := UnixNano w in
  let outputTemplate :=
    Join w tempDir (Itoa timestamp +:+ "_%(title)s.%(ext)s") in
  let args := ["-f"; formatID; "-o"; outputTemplate;
               "--no-warnings"; "--no-playlist"; "--no-mtime"] in
  let args :=
    if ContainsByte formatID "+"
    then args ++ ["--merge-output-format"; "mp4";
                  "--postprocessor-args";
                  "ffmpeg:-c:v copy -c:a aac -strict experimental"]
    else args in
  args ++ [url].

(** The pattern the produced file is looked up with. *)
Definition outputPattern (w : world) (tempDir : string) : string :=
  Join w tempDir (Itoa (UnixNano w) +:+ "_*").

Definition DownloadToFile (w : world) (ytdlpPath url formatID tempDir : string)
  : outcome :=
  match ValidateURL w url with
  | Some e => fail e []
  | None =>
      match Output w ytdlpPath (downloadArgs w url formatID tempDir) with
      | CmdExitError stderr => fail ("download failed: " +:+ stderr) []
      | CmdOtherError msg => fail ("download failed: " +:+ msg) []
      | CmdOk _ =>
          match Glob w (outputPattern w tempDir) with
          | None | Some [] => fail "could not find downloaded file" []
          | Some (first :: _) =>
              let baseName := Base w first in
              let name :=
                match SplitN2 baseName "_" with
                | [_; rest] => rest
                | _ => baseName
                end in
              match Stat w first with
              | inr e => fail ("downloaded file not found: " +:+ e) []
              | inl size =>
                  if size =? 0
                  then fail "downloaded file is empty" [first]
                  else {| filePath := first; filename := name;
                          err := None; removed := [] |}
              end
          end
      end
  end.

End Orchestrator.

(** ** Concurrency gate *)

Module Gate.

(** Modelled from the spec: the type [services.Semaphore], whose source
    file is not part of the sources at hand.  A counting permit pool of
    fixed capacity: [TryAcquire] never blocks and takes a permit when one
    is free, [Release] returns a held permit, [Available] counts the free
    permits. *)
Record Semaphore : Set := mkSemaphore {
  capacity : nat;
  held : nat
}.

Definition TryAcquire (s : Semaphore) : bool * Semaphore :=
  if (held s <? capacity s)%nat
  then (true, {| capacity := capacity s; held := S (held s) |})
  else (false, s).

Definition Release (s : Semaphore) : Semaphore :=
  {| capacity := capacity s; held := pred (held s) |}.

Definition Available (s : Semaphore) : nat := (capacity s - held s)%nat.

End Gate.

(** ** Download handler: [DownloadHandler.ServeHTTP] *)

Module Handler.

Import Gate.

(** The double quote, written by its code. *)
Definition dq : string := String "034"%char EmptyString.

(** The JSON bodies passed to [http.Error]. *)
Definition errorBody (msg : string) : string :=
  "{" +:+ dq +:+ "error" +:+ dq +:+ ": " +:+ dq +:+ msg +:+ dq +:+ "}".

(** [filepath.Ext]: the suffix that starts at the last dot of the last
    path element.  [scanExt] reads the path from its end. *)
Inductive scan : Set :=
| Dot (ext : string)
| Separator
| Neither.

Fixpoint scanExt (path : string) : scan :=
  match path with
  | EmptyString => Neither
  | String c rest =>
      match scanExt rest with
      | Neither =>
          if Ascii.eqb c "/" then Separator
          else if Ascii.eqb c "." then Dot path
          else Neither
      | found => found
      end
  end.

Definition filepath_Ext (path : string) : string :=
  match scanExt path with
  | Dot ext => ext
  | _ => ""
  end.

(** [sanitizeFilename]: every old string of the replacer is one byte. *)
Definition sanitizeByte (c : ascii) : ascii :=
  if Ascii.eqb c "034" then "'"
  else if Ascii.eqb c "\" then "_"
  else if Ascii.eqb c "/" then "_"
  else if Ascii.eqb c ":" then "-"
  else if Ascii.eqb c "*" then "_"
  else if Ascii.eqb c "?" then "_"
  else if Ascii.eqb c "<" then "_"
  else if Ascii.eqb c ">" then "_"
  else if Ascii.eqb c "|" then "_"
  else c.

Fixpoint sanitizeFilename (filename : string) : string :=
  match filename with
  | EmptyString => EmptyString
  | String c rest => String (sanitizeByte c) (sanitizeFilename rest)
  end.

(** [*http.Request]: the method and the parsed query ([url.Values]). *)
Record Request : Type := mkRequest {
  Method : string;
  Query : gmap string (list string)
}.

(** [url.Values.Get]. *)
Definition Get (q : gmap string (list string)) (key : string) : string :=
  match q !! key with
  | Some (v :: _) => v
  | _ => ""
  end.

(** What the handler does to the outside, in the order it does it. *)
Inductive event : Set :=
| HttpError (body : string) (code : Z)
| Log (level msg : string)
| SemTryAcquire (ok : bool)
| SemAvailable
| SemRelease
| MkdirAll (path : string)
| CallDownloadToFile (url formatID tempDir : string) (isAudioOnly : bool)
| OsRemove (path : string)
| OsOpen (path : string)
| FileClose (path : string)
| FileStat (path : string)
| SetHeader (key value : string)
| IoCopy (path : string).

(** The calls a [defer] statement can register. *)
Inductive deferredCall : Set :=
| DeferRelease
| DeferRemove (path : string)
| DeferClose (path : string).

(** The collaborators of one request.  [DownloadToFile] is the method of
    the [ytdlp] field; the handler calls it with an [isAudioOnly] flag. *)
Record env : Type := mkEnv {
  QueryUnescape : string -> option string;
  PathEscape : string -> string;
  TypeByExtension : string -> string;
  os_MkdirAll : string -> bool;                   (* [true]: no error *)
  DownloadToFile : string -> string -> string -> bool ->
                   string * string * option string;
  os_Open : string -> bool;                       (* [true]: no error *)
  file_Stat : string -> option Z;                 (* size, [None]: error *)
  io_Copy : string -> Z * bool                    (* written, no error *)
}.

(** The state of one run of the function: the gate, the events so far
    and the deferred calls, the latest first. *)
Record hstate : Set := mkState {
  sem : Semaphore;
  trace : list event;
  deferred : list deferredCall
}.

(** A statement either falls through with a value or returns from the
    function. *)
Inductive flow (A : Type) : Type :=
| Next (a : A)
| Returned.
Arguments Next {A} a.
Arguments Returned {A}.

Definition M (A : Type) : Type := hstate -> flow A * hstate.

#[global] Instance M_ret : MRet M := fun A a s => (Next a, s).

#[global] Instance M_bind : MBind M := fun A B k m s =>
  match m s with
  | (Next a, s') => k a s'
  | (Returned, s') => (Returned, s')
  end.

(** Go's [return]. *)
Definition return_ : M unit := fun s => (Returned, s).

Definition emit (e : event) : M unit := fun s =>
  (Next tt, {| sem := sem s; trace := trace s ++ [e]; deferred := deferred s |}).

Definition defer (d : deferredCall) : M unit := fun s =>
  (Next tt, {| sem := sem s; trace := trace s; deferred := d :: deferred s |}).

Definition when (b : bool) (m : M unit) : M unit :=
  if b then m else mret tt.

Definition tryAcquire : M bool := fun s =>
  let '(ok, sem') := TryAcquire (sem s) in
  (Next ok, {| sem := sem'; trace := trace s ++ [SemTryAcquire ok];
               deferred := deferred s |}).

Definition runDeferred (s : hstate) (d : deferredCall) : hstate :=
  match d with
  | DeferRelease =>
      {| sem := Release (sem s); trace := trace s ++ [SemRelease];
         deferred := deferred s |}
  | DeferRemove path =>
      {| sem := sem s; trace := trace s ++ [OsRemove path];
         deferred := deferred s |}
  | DeferClose path =>
      {| sem := sem s; trace := trace s ++ [FileClose path];
         deferred := deferred s |}
  end.

(** A call of the function: the body runs, then the deferred calls run
    in last-in-first-out order. *)
Definition call (body : M unit) (s : Semaphore) : hstate :=
  let s' := (body {| sem := s; trace := []; deferred := [] |}).2 in
  fold_left runDeferred (deferred s')
            {| sem := sem s'; trace := trace s'; deferred := [] |}.

Definition tempDir : string := "/tmp/viddown".

Definition ServeHTTP_body (e : env) (r : Request) : M unit :=
  when (negb (String.eqb (Method r) "GET"))
       (emit (HttpError (errorBody "Method not allowed") 405);; return_);;
  let videoURL := Get (Query r) "url" in
  let formatID := Get (Query r) "format_id" in
  let formatType := Get (Query r) "type" in
  when (String.eqb videoURL "")
       (emit (HttpError (errorBody "URL parameter is required") 400);;
        return_);;
  match QueryUnescape e videoURL with
  | None =>
      emit (Log "ERROR" "Failed to decode URL");;
      emit (HttpError (errorBody "Invalid URL encoding") 400);;
      return_
  | Some decodedURL =>
      let formatID := if String.eqb formatID "" then "best" else formatID in
      let isAudioOnly := String.eqb formatType "audio" in
      ok ← tryAcquire;
      when (negb ok)
           (emit SemAvailable;;
            emit (Log "WARN" "Too many concurrent downloads");;
            emit (HttpError
                    (errorBody "Server busy. Please try again in a moment.")
                    503);;
            return_);;
      defer DeferRelease;;
      emit (Log "INFO" "Starting download");;
      emit (MkdirAll tempDir);;
      when (negb (os_MkdirAll e tempDir))
           (emit (Log "ERROR" "Failed to create temp directory");;
            emit (HttpError (errorBody "Internal server error") 500);;
            return_);;
      emit (CallDownloadToFile decodedURL formatID tempDir isAudioOnly);;
      let '(tempFile, filename, err) :=
        DownloadToFile e decodedURL formatID tempDir isAudioOnly in
      when (bool_decide (err ≠ None))
           (emit (Log "ERROR" "Download failed");;
            emit (HttpError (errorBody "Download failed") 500);;
            return_);;
      defer (DeferRemove tempFile);;
      emit (OsOpen tempFile);;
      when (negb (os_Open e tempFile))
           (emit (Log "ERROR" "Failed to open temp file");;
            emit (HttpError (errorBody "Internal server error") 500);;
            return_);;
      defer (DeferClose tempFile);;
      emit (FileStat tempFile);;
      match file_Stat e tempFile with
      | None =>
          emit (Log "ERROR" "Failed to stat temp file");;
          emit (HttpError (errorBody "Internal server error") 500);;
          return_
      | Some size =>
          let sanitizedFilename := sanitizeFilename filename in
          let encodedFilename := PathEscape e filename in
          let ext := filepath_Ext filename in
          let '(ext, filename, sanitizedFilename, encodedFilename) :=
            if String.eqb ext ""
            then (".mp4", filename +:+ ".mp4", sanitizedFilename +:+ ".mp4",
                  PathEscape e (filename +:+ ".mp4"))
            else (ext, filename, sanitizedFilename, encodedFilename) in
          let contentType := TypeByExtension e ext in
          let contentType :=
            if String.eqb contentType "" then "application/octet-stream"
            else contentType in
          emit (SetHeader "Content-Type" contentType);;
          emit (SetHeader "Content-Length" (Itoa size));;
          emit (SetHeader "Content-Disposition"
                  ("attachment; filename=" +:+ dq +:+ sanitizedFilename
                   +:+ dq +:+ "; filename*=UTF-8''" +:+ encodedFilename));;
          emit (SetHeader "X-Content-Type-Options" "nosniff");;
          emit (SetHeader "Cache-Control" "no-cache");;
          emit (IoCopy tempFile);;
          when (negb (io_Copy e tempFile).2)
               (emit (Log "ERROR" "Failed to stream file");; return_);;
          emit (Log "INFO" "Download complete")
      end
  end.

Definition ServeHTTP (e : env) (r : Request) (s : Semaphore) : hstate :=
  call (ServeHTTP_body e r) s.

End Handler.


(** ** Vocabulary of the properties *)

(** The signature the normalizer deduplicates on. *)
Definition triple (d : Format) : string * string * string :=
  (Type_ d, Quality d, Ext d).

(** The descriptor one raw encoding stands for, when it is not skipped. *)
Definition candidate (f : ytdlpFormat) : option Format :=
  match classify f with
  | Keep formatType quality =>
      Some {| ID := ytFormatID f; Type_ := formatType; Quality := quality;
              Ext := ytExt f; Size := ytFilesize f |}
  | _ => None
  end.

(** Deduplication as the specification words it: a descriptor is kept when
    no earlier one has its triple. *)
Fixpoint keep_first (earlier : list (string * string * string))
         (l : list Format) : list Format :=
  match l with
  | [] => []
  | d :: rest =>
      if decide (triple d ∈ earlier) then keep_first earlier rest
      else d :: keep_first (triple d :: earlier) rest
  end.

Fixpoint no_hyphen (s : string) : bool :=
  match s with
  | EmptyString => true
  | String c rest => negb (Ascii.eqb c "-") && no_hyphen rest
  end.

(** The shapes a kept descriptor can have. *)
Definition normal (d : Format) : Prop :=
  (Type_ d = "audio" ∧ no_hyphen (Quality d) = true)
  ∨ (Type_ d = "video" ∧ Ext d = "mp4").

(** What one tier appends: nothing, a video-only offer, or a merged offer
    and a video-only offer. *)
Inductive tierShape (res : Z) (bestAudio : option Format)
  : list Format → Prop :=
| TierNone : tierShape res bestAudio []
| TierVideoOnly f :
    bestAudio = None → tierShape res bestAudio [videoOnlyOffer res f]
| TierMerged f a :
    bestAudio = Some a →
    tierShape res bestAudio [mergedOffer res f a; videoOnlyOffer res f].

(** Classifiers of the events of the handler, and counting with them. *)
Definition isAcquired (ev : Handler.event) : bool :=
  match ev with Handler.SemTryAcquire true => true | _ => false end.

Definition isRelease (ev : Handler.event) : bool :=
  match ev with Handler.SemRelease => true | _ => false end.

Definition isDownload (ev : Handler.event) : bool :=
  match ev with Handler.CallDownloadToFile _ _ _ _ => true | _ => false end.

Definition isRemove (ev : Handler.event) : bool :=
  match ev with Handler.OsRemove _ => true | _ => false end.

Definition count (p : Handler.event → bool) (tr : list Handler.event) : nat :=
  length (List.filter p tr).

(** Every download event of [tr] has a successful acquisition before it;
    [acq] tells whether one stands before [tr]. *)
Fixpoint guarded (acq : bool) (tr : list Handler.event) : bool :=
  match tr with
  | [] => true
  | ev :: rest =>
      (if isDownload ev then acq else true)
      && guarded (acq || isAcquired ev) rest
  end.

(** ** Sample inputs *)

(** The three raw encodings of the example of the specification, with the
    fields it leaves open filled in. *)
Definition raw137 : ytdlpFormat :=
  mkYtdlpFormat "137" "mp4" "1920x1080" "avc1.640028" "none" 0 (0 # 1) 1080
                "1080p".
Definition raw140 : ytdlpFormat :=
  mkYtdlpFormat "140" "m4a" "audio only" "none" "mp4a.40.2" 0 (128 # 1) 0
                "medium".
Definition raw251 : ytdlpFormat :=
  mkYtdlpFormat "251" "webm" "audio only" "none" "opus" 0 (160 # 1) 0
                "medium".
Definition spec_example : list ytdlpFormat := [raw137; raw140; raw251].

(** A video encoding in another container, and one with no codec tags. *)
Definition raw248 : ytdlpFormat :=
  mkYtdlpFormat "248" "webm" "1920x1080" "vp9" "none" 0 (0 # 1) 1080 "1080p".
Definition rawNoCodec : ytdlpFormat :=
  mkYtdlpFormat "18" "mp4" "" "" "" 0 (0 # 1) 720 "".

(** The last element of a slash-separated path. *)
Fixpoint lastElement (path : string) : string :=
  match path with
  | EmptyString => EmptyString
  | String c rest =>
      if ContainsByte rest "/" then lastElement rest
      else if Ascii.eqb c "/" then rest
      else path
  end.

(** A world in which the subprocess succeeds and the lookup finds
    [matches], each a non-empty file. *)
Definition sampleWorld (matches : list string) : Orchestrator.world :=
  {| Orchestrator.ValidateURL := λ _, None;
     Orchestrator.UnixNano := 1700000000000000000;
     Orchestrator.Join := λ dir name, dir +:+ "/" +:+ name;
     Orchestrator.Base := lastElement;
     Orchestrator.Output := λ _ _, Orchestrator.CmdOk "";
     Orchestrator.Glob := λ _, Some matches;
     Orchestrator.Stat := λ _, inl 1024 |}.

Definition sampleMatch1 : string :=
  "/tmp/viddown/1700000000000000000_clip.mp4".
Definition sampleMatch2 : string :=
  "/tmp/viddown/1700000000000000000_clip.f137.mp4".

(** An environment in which every step of the handler succeeds; the
    downloaded file is called [name], and only [.mp4] has a media type. *)
Definition sampleEnv (name : string) : Handler.env :=
  {| Handler.QueryUnescape := Some;
     Handler.PathEscape := λ s, s;
     Handler.TypeByExtension :=
       λ ext, if String.eqb ext ".mp4" then "video/mp4" else "";
     Handler.os_MkdirAll := λ _, true;
     Handler.DownloadToFile :=
       λ _ _ dir _, (dir +:+ "/1700000000000000000_" +:+ name, name, None);
     Handler.os_Open := λ _, true;
     Handler.file_Stat := λ _, Some 1024;
     Handler.io_Copy := λ _, (1024, true) |}.

Definition sampleRequest : Handler.Request :=
  {| Handler.Method := "GET";
     Handler.Query := {[ "url" := ["https://youtu.be/abc"];
                         "format_id" := ["137+251"] ]} |}.

Definition freeGate : Gate.Semaphore :=
  {| Gate.capacity := 3; Gate.held := 0 |}.
Definition fullGate : Gate.Semaphore :=
  {| Gate.capacity := 1; Gate.held := 1 |}.

(** ** Configuration: [config.Load] *)

Module Config.

Record Config : Set := mkConfig {
  Port : string;
  AuthRequired : bool;
  MaxConcurrent : Z;
  RateLimitRPM : Z;
  YtDlpPath : string
}.

(** [os.Getenv] on the environment of the process: the empty string for a
    variable that is not set. *)
Definition Getenv (environ : gmap string string) (key : string) : string :=
  default "" (environ !! key).

(** [strconv.ParseBool]. *)
Definition ParseBool (str : string) : option bool :=
  if String.eqb str "1" || String.eqb str "t" || String.eqb str "T"
     || String.eqb str "TRUE" || String.eqb str "true"
     || String.eqb str "True"
  then Some true
  else if String.eqb str "0" || String.eqb str "f" || String.eqb str "F"
          || String.eqb str "FALSE" || String.eqb str "false"
          || String.eqb str "False"
  then Some false
  else None.

Definition getEnv (environ : gmap string string) (key defaultValue : string)
  : string :=
  let value := Getenv environ key in
  if negb (String.eqb value "") then value else defaultValue.

Definition getEnvBool (environ : gmap string string) (key : string)
           (defaultValue : bool) : bool :=
  let value := Getenv environ key in
  if negb (String.eqb value "")
  then match ParseBool value with
       | Some b => b
       | None => defaultValue
       end
  else defaultValue.

Definition getEnvInt (environ : gmap string string) (key : string)
           (defaultValue : Z) : Z :=
  let value := Getenv environ key in
  if negb (String.eqb value "")
  then match Atoi value with
       | Some i => i
       | None => defaultValue
       end
  else defaultValue.

Definition Load (environ : gmap string string) : Config :=
  {| Port := getEnv environ "PORT" "8080";
     AuthRequired := getEnvBool environ "AUTH_REQUIRED" false;
     MaxConcurrent := getEnvInt environ "MAX_CONCURRENT" 3;
     RateLimitRPM := getEnvInt environ "RATE_LIMIT_RPM" 10;
     YtDlpPath := getEnv environ "YTDLP_PATH" "/usr/local/bin/yt-dlp" |}.

End Config.

(** ** URL validator: [Validator.ValidateURL] *)

Module Validator.

Inductive Platform : Set :=
| PlatformYouTube
| PlatformInstagram
| PlatformTikTok
| PlatformUnknown.

#[global] Instance Platform_eq_dec : EqDecision Platform.
Proof. solve_decision. Defined.

Inductive urlError : Set :=
| ErrInvalidURL
| ErrUnsupportedURL.

Definition isLower (c : ascii) : bool :=
  (97 <=? nat_of_ascii c)%nat && (nat_of_ascii c <=? 122)%nat.

Definition isUpper (c : ascii) : bool :=
  (65 <=? nat_of_ascii c)%nat && (nat_of_ascii c <=? 90)%nat.

Definition toLower (c : ascii) : ascii :=
  if isUpper c then ascii_of_nat (nat_of_ascii c + 32) else c.

Definition toUpper (c : ascii) : ascii :=
  if isLower c then ascii_of_nat (nat_of_ascii c - 32) else c.

(** The texts a literal character of a pattern compiled with [(?i)]
    matches: the UTF-8 encodings of the runes of its case-folding orbit.
    For a letter these are its two cases; the orbit of [k] also holds the
    Kelvin sign U+212A and the orbit of [s] the long s U+017F. *)
Definition foldOrbit (c : ascii) : list string :=
  let lower := toLower c in
  if isLower lower
  then [String lower EmptyString; String (toUpper lower) EmptyString]
       ++ (if Ascii.eqb lower "k"
           then [String "226" (String "132" (String "170" EmptyString))]
           else if Ascii.eqb lower "s"
           then [String "197" (String "191" EmptyString)]
           else [])
  else [String c EmptyString].

Fixpoint dropBytes (n : nat) (s : string) : string :=
  match n, s with
  | O, _ => s
  | S n', String _ s' => dropBytes n' s'
  | S _, EmptyString => EmptyString
  end.

(** The literal [pat] matches a prefix of [s], up to case folding. *)
Fixpoint matchHere (pat s : string) : bool :=
  match pat with
  | EmptyString => true
  | String p pat' =>
      existsb (fun alt =>
                 if HasPrefix s alt
                 then matchHere pat' (dropBytes (String.length alt) s)
                 else false)
              (foldOrbit p)
  end.

(** The literal [pat] matches somewhere in [s]: what an unanchored
    [MatchString] does for a pattern that is one literal. *)
Fixpoint containsFold (s pat : string) : bool :=
  if matchHere pat s then true
  else match s with
       | EmptyString => false
       | String _ s' => containsFold s' pat
       end.

(** [platformPatterns]: each pattern is [(?i)] and an alternation of
    literals (the dots are escaped). *)
Definition platformPatterns (p : Platform) : list string :=
  match p with
  | PlatformYouTube => ["youtube.com"; "youtu.be"; "music.youtube.com"]
  | PlatformInstagram => ["instagram.com"; "instagr.am"]
  | PlatformTikTok => ["tiktok.com"; "vm.tiktok.com"]
  | PlatformUnknown => []
  end.

(** [pattern.MatchString(host)] for the pattern of [p]. *)
Definition MatchString (p : Platform) (host : string) : bool :=
  existsb (containsFold host) (platformPatterns p).

(** The keys of [platformPatterns]. *)
Definition platformKeys : list Platform :=
  [PlatformYouTube; PlatformInstagram; PlatformTikTok].

(** [ValidateURL].  [TrimSpace] is [strings.TrimSpace]; [Parse] is
    [url.Parse] followed by the read of [Host] ([None]: an error).  The
    order in which [range] visits a Go map is not fixed: [order] is the one
    of this call, a permutation of [platformKeys]. *)
Definition ValidateURL (TrimSpace : string → string)
           (Parse : string → option string) (order : list Platform)
           (rawURL : string) : Platform * option urlError :=
  let rawURL := TrimSpace rawURL in
  match Parse rawURL with
  | None => (PlatformUnknown, Some ErrInvalidURL)
  | Some host =>
      if String.eqb host "" then (PlatformUnknown, Some ErrInvalidURL)
      else match List.find (fun p => MatchString p host) order with
           | Some platform => (platform, None)
           | None => (PlatformUnknown, Some ErrUnsupportedURL)
           end
  end.

End Validator.

(** ** Analysis: [YtDlpService.Analyze] and [AnalyzeHandler.ServeHTTP] *)

Module Analyzer.

Import Validator.

Record ytdlpInfo : Set := mkYtdlpInfo {
  ytTitle : string;
  ytDuration : Q;
  ytThumbnail : string;
  ytFormats : list ytdlpFormat;
  ytExtractor : string
}.

Record VideoInfo : Set := mkVideoInfo {
  Platform_ : Platform;
  Title : string;
  Duration : Z;
  Thumbnail : string;
  Formats : list Format
}.

(** The errors of [Analyze]: the two sentinels of the validator, which the
    handler compares with, and the errors made with [fmt.Errorf]. *)
Inductive analyzeError : Set :=
| InvalidURL
| UnsupportedURL
| OtherError (msg : string).

(** The collaborators of one call of [Analyze]: the validator, the
    subprocess, [json.Unmarshal] into [ytdlpInfo] and the conversion
    [int(float64)]. *)
Record world : Type := mkWorld {
  Validate : string → Platform * option urlError;
  Output : string → list string → Orchestrator.cmdResult;
  Unmarshal : string → ytdlpInfo + string;
  toInt : Q → Z
}.

Definition Analyze (w : world) (ytdlpPath url : string)
  : VideoInfo + analyzeError :=
  match Validate w url with
  | (_, Some ErrInvalidURL) => inr InvalidURL
  | (_, Some ErrUnsupportedURL) => inr UnsupportedURL
  | (platform, None) =>
      match Output w ytdlpPath
                   ["--dump-json"; "--no-download"; "--no-warnings";
                    "--no-playlist"; url] with
      | Orchestrator.CmdExitError stderr =>
          inr (OtherError ("yt-dlp error: " +:+ stderr))
      | Orchestrator.CmdOtherError msg =>
          inr (OtherError ("failed to execute yt-dlp: " +:+ msg))
      | Orchestrator.CmdOk output =>
          match Unmarshal w output with
          | inr e =>
              inr (OtherError ("failed to parse yt-dlp output: " +:+ e))
          | inl info =>
              inl {| Platform_ := platform;
                     Title := ytTitle info;
                     Duration := toInt w (ytDuration info);
                     Thumbnail := ytThumbnail info;
                     Formats := parseFormats (ytFormats info) |}
          end
      end
  end.

(** [string(info.Platform)]. *)
Definition platformName (p : Platform) : string :=
  match p with
  | PlatformYouTube => "youtube"
  | PlatformInstagram => "instagram"
  | PlatformTikTok => "tiktok"
  | PlatformUnknown => "unknown"
  end.

Record AnalyzeResponse : Set := mkAnalyzeResponse {
  respPlatform : string;
  respTitle : string;
  respDuration : Z;
  respThumbnail : string;
  respFormats : list Format
}.

(** What the handler encodes into the body. *)
Inductive body : Set :=
| ErrorResponse (error : string)
| Analysis (response : AnalyzeResponse).

(** The answer: the status code (200 when [WriteHeader] is not called) and
    the encoded value. *)
Record answer : Set := mkAnswer {
  status : Z;
  encoded : body
}.

(** [*http.Request]: the method and the body; [Decode] is the JSON decoding
    of the body into [AnalyzeRequest], giving its [URL] ([None]: error). *)
Record Request : Set := mkRequest {
  Method : string;
  Body : string
}.

Definition ServeHTTP (Decode : string → option string) (w : world)
           (ytdlpPath : string) (r : Request) : answer :=
  if negb (String.eqb (Method r) "POST")
  then {| status := 405; encoded := ErrorResponse "Method not allowed" |}
  else
    match Decode (Body r) with
    | None => {| status := 400; encoded := ErrorResponse "Invalid request body" |}
    | Some url =>
        if String.eqb url ""
        then {| status := 400; encoded := ErrorResponse "URL is required" |}
        else
          match Analyze w ytdlpPath url with
          | inr InvalidURL =>
              {| status := 400; encoded := ErrorResponse "Invalid URL format" |}
          | inr UnsupportedURL =>
              {| status := 400;
                 encoded :=
                   ErrorResponse
                     "Unsupported platform. Supported: YouTube, Instagram, TikTok" |}
          | inr (OtherError _) =>
              {| status := 500;
                 encoded :=
                   ErrorResponse
                     "Failed to analyze video. Please check the URL and try again." |}
          | inl info =>
              let simplifiedFormats := GetBestFormats (Formats info) in
              let simplifiedFormats :=
                match simplifiedFormats with
                | [] => Formats info
                | _ => simplifiedFormats
                end in
              {| status := 200;
                 encoded :=
                   Analysis {| respPlatform := platformName (Platform_ info);
                               respTitle := Title info;
                               respDuration := Duration info;
                               respThumbnail := Thumbnail info;
                               respFormats := simplifiedFormats |} |}
          end
    end.

End Analyzer.

(** ** File name without download: [YtDlpService.GetFilename] *)

Module Filename.

(** [strings.Split(s, sep)] for a one-byte [sep]. *)
Fixpoint Split (s : string) (sep : ascii) : list string :=
  match s with
  | EmptyString => [EmptyString]
  | String c s' =>
      if Ascii.eqb c sep then EmptyString :: Split s' sep
      else match Split s' sep with
           | hd :: tl => String c hd :: tl
           | [] => [String c EmptyString]
           end
  end.

(** [strings.Join(parts, sep)]. *)
Fixpoint Join (parts : list string) (sep : string) : string :=
  match parts with
  | [] => EmptyString
  | [part] => part
  | part :: rest => part +:+ sep +:+ Join rest sep
  end.

(** [parts[len(parts)-1] = value]. *)
Definition setLast (parts : list string) (value : string) : list string :=
  <[ Nat.pred (length parts) := value ]> parts.

(** [GetFilename].  [Output] is the subprocess (its output, or an error)
    and [TrimSpace] is [strings.TrimSpace]. *)
Definition GetFilename (Output : list string → string + string)
           (TrimSpace : string → string) (url formatID : string)
  : string + string :=
  let baseFormatID :=
    if ContainsByte formatID "+"
    then match Split formatID "+" with
         | first :: _ => first
         | [] => formatID
         end
    else formatID in
  match Output ["--get-filename"; "-f"; baseFormatID;
                "-o"; "%(title)s.%(ext)s"; "--no-warnings"; url] with
  | inr e => inr ("failed to get filename: " +:+ e)
  | inl output =>
      let filename := TrimSpace output in
      if ContainsByte formatID "+" && negb (HasSuffix filename ".mp4")
      then let parts := Split filename "." in
           if (1 <? length parts)%nat
           then inl (Join (setLast parts "mp4") ".")
           else inl filename
      else inl filename
  end.

End Filename.

(** The number a digit sequence stands for, read from the left onto [acc]. *)
Fixpoint uint_value (d : Decimal.uint) (acc : Z) : Z :=
  match d with
  | Decimal.Nil => acc
  | Decimal.D0 l => uint_value l (10 * acc + 0)
  | Decimal.D1 l => uint_value l (10 * acc + 1)
  | Decimal.D2 l => uint_value l (10 * acc + 2)
  | Decimal.D3 l => uint_value l (10 * acc + 3)
  | Decimal.D4 l => uint_value l (10 * acc + 4)
  | Decimal.D5 l => uint_value l (10 * acc + 5)
  | Decimal.D6 l => uint_value l (10 * acc + 6)
  | Decimal.D7 l => uint_value l (10 * acc + 7)
  | Decimal.D8 l => uint_value l (10 * acc + 8)
  | Decimal.D9 l => uint_value l (10 * acc + 9)
  end.

(** The test of the inner loop of the ranker: a video descriptor whose
    quality label starts with the number of the tier. *)
Definition tierMatch (res : Z) (f : Format) : bool :=
  String.eqb (Type_ f) "video" && HasPrefix (Quality f) (Itoa res).

(** The offers one tier contributes, given the first match of the tier. *)
Definition tierOffers (res : Z) (bestAudio : option Format)
           (formats : list Format) : list Format :=
  match List.find (tierMatch res) formats with
  | Some f =>
      match bestAudio with
      | Some a => [mergedOffer res f a; videoOnlyOffer res f]
      | None => [videoOnlyOffer res f]
      end
  | None => []
  end.

(** More classifiers of the events of the handler. *)
Definition isHttpError (ev : Handler.event) : bool :=
  match ev with Handler.HttpError _ _ => true | _ => false end.

Definition isCopy (ev : Handler.event) : bool :=
  match ev with Handler.IoCopy _ => true | _ => false end.

Definition isClose (ev : Handler.event) : bool :=
  match ev with Handler.FileClose _ => true | _ => false end.

Definition isHeader (ev : Handler.event) : bool :=
  match ev with Handler.SetHeader _ _ => true | _ => false end.

Definition isGate (ev : Handler.event) : bool :=
  match ev with
  | Handler.SemTryAcquire _ | Handler.SemAvailable | Handler.SemRelease => true
  | _ => false
  end.

(** The bytes [sanitizeFilename] replaces. *)
Definition forbiddenByte (c : ascii) : bool :=
  Ascii.eqb c "034" || Ascii.eqb c "\" || Ascii.eqb c "/"
  || Ascii.eqb c ":" || Ascii.eqb c "*" || Ascii.eqb c "?"
  || Ascii.eqb c "<" || Ascii.eqb c ">" || Ascii.eqb c "|".

(** A world for the analysis: the validator with the identity for
    [TrimSpace] and for the host, a subprocess that succeeds, and a decoder
    that yields the encodings of the example. *)
Definition sampleInfo : Analyzer.ytdlpInfo :=
  {| Analyzer.ytTitle := "clip"; Analyzer.ytDuration := 12 # 1;
     Analyzer.ytThumbnail := "https://i.ytimg.com/vi/abc/default.jpg";
     Analyzer.ytFormats := spec_example;
     Analyzer.ytExtractor := "youtube" |}.

Definition sampleAnalyzerWorld : Analyzer.world :=
  {| Analyzer.Validate :=
       Validator.ValidateURL (λ s, s) Some Validator.platformKeys;
     Analyzer.Output := λ _ _, Orchestrator.CmdOk "{}";
     Analyzer.Unmarshal := λ _, inl sampleInfo;
     Analyzer.toInt := λ q, Z.quot (Qnum q) (Z.pos (Qden q)) |}.

Definition sampleAnalyzeRequest : Analyzer.Request :=
  {| Analyzer.Method := "POST"; Analyzer.Body := "www.youtube.com" |}.

(** The header that carries the media type. *)
Definition isContentType (ev : Handler.event) : bool :=
  match ev with
  | Handler.SetHeader key _ => String.eqb key "Content-Type"
  | _ => false
  end.

(** Every event of [tr] that satisfies [q] has an event that satisfies [p]
    before it; [seen] tells whether one stands before [tr]. *)
Fixpoint precededBy (p q : Handler.event → bool) (seen : bool)
         (tr : list Handler.event) : bool :=
  match tr with
  | [] => true
  | ev :: rest =>
      (if q ev then seen else true) && precededBy p q (seen || p ev) rest
  end.

(** ** Lemmas on strings *)

Lemma string_app_length (a b : string) :
  String.length (a +:+ b) = (String.length a + String.length b)%nat.
Proof. induction a as [|x a IH]; simpl; [done | by rewrite IH]. Qed.

Lemma string_app_inv_tail (a b t : string) : a +:+ t = b +:+ t → a = b.
Proof.
  revert b. induction a as [|x a IH]; intros [|y b] H; simpl in H.
  - done.
  - apply (f_equal String.length) in H. simpl in H.
    rewrite string_app_length in H. lia.
  - apply (f_equal String.length) in H. simpl in H.
    rewrite string_app_length in H. lia.
  - injection H as -> H. f_equal. by apply IH.
Qed.

Lemma no_hyphen_app (a b : string) :
  no_hyphen (a +:+ b) = no_hyphen a && no_hyphen b.
Proof.
  induction a as [|x a IH]; simpl; [done|].
  rewrite IH. by rewrite andb_assoc.
Qed.

Lemma no_hyphen_split (a b x y : string) :
  no_hyphen a = true → no_hyphen b = true →
  a +:+ String "-" x = b +:+ String "-" y → a = b ∧ x = y.
Proof.
  revert b. induction a as [|c a IH]; intros [|c' b] Ha Hb H; simpl in *.
  - by injection H.
  - injection H as <- _. by rewrite Ascii.eqb_refl in Hb.
  - injection H as -> _. by rewrite Ascii.eqb_refl in Ha.
  - injection H as -> H.
    apply andb_prop in Ha as [_ Ha]. apply andb_prop in Hb as [_ Hb].
    destruct (IH b Ha Hb H) as [-> ->]. done.
Qed.

Lemma no_hyphen_uint (u : Decimal.uint) :
  no_hyphen (NilEmpty.string_of_uint u) = true.
Proof. induction u; simpl; done. Qed.

Lemma no_hyphen_uint0 (u : Decimal.uint) :
  no_hyphen (NilZero.string_of_uint u) = true.
Proof.
  destruct u; try done; apply (no_hyphen_uint (_ u)) || exact (no_hyphen_uint _).
Qed.

Lemma no_hyphen_Itoa (z : Z) : 0 <= z → no_hyphen (Itoa z) = true.
Proof.
  intros Hz. unfold Itoa. destruct z as [|p|p]; [done| |lia].
  apply no_hyphen_uint0.
Qed.

Lemma round_half_even_nonneg (x : Q) : 0 < Qnum x → 0 <= round_half_even x.
Proof.
  intros Hx. unfold round_half_even.
  assert (0 <= Qnum x / Z.pos (Qden x)) by (apply Z.div_pos; lia).
  destruct (2 * (Qnum x mod Z.pos (Qden x)) ?= Z.pos (Qden x));
    [destruct (Z.even _)| |]; lia.
Qed.

Lemma no_hyphen_FormatFloat0 (x : Q) :
  0 < Qnum x → no_hyphen (FormatFloat0 x) = true.
Proof.
  intros Hx. unfold FormatFloat0.
  destruct (Z.ltb_spec (Qnum x) 0); [lia|].
  by apply no_hyphen_Itoa, round_half_even_nonneg.
Qed.

(** ** Lemmas on the normalizer *)

Lemma candidate_normal (f : ytdlpFormat) (d : Format) :
  candidate f = Some d → normal d.
Proof.
  unfold candidate, classify, normal. intros H.
  repeat case_match; simplify_eq/=; auto.
  - left. split; [done|]. rewrite no_hyphen_app.
    rewrite no_hyphen_FormatFloat0; [done|]. by apply Z.ltb_lt.
  - right. split; [done|].
    match goal with
    | H : negb (String.eqb _ "mp4") = false |- _ =>
        apply negb_false_iff, String.eqb_eq in H; exact H
    end.
  - right. split; [done|].
    match goal with
    | H : negb (String.eqb _ "mp4") = false |- _ =>
        apply negb_false_iff, String.eqb_eq in H; exact H
    end.
Qed.

Lemma dedupKey_inj (d1 d2 : Format) :
  normal d1 → normal d2 →
  dedupKey (Type_ d1) (Quality d1) (Ext d1)
  = dedupKey (Type_ d2) (Quality d2) (Ext d2) →
  triple d1 = triple d2.
Proof.
  unfold normal, triple, dedupKey.
  intros [[T1 Q1]|[T1 E1]] [[T2 Q2]|[T2 E2]] H;
    rewrite T1, T2 in *; simpl in H; try discriminate.
  - simplify_eq. destruct (no_hyphen_split _ _ _ _ Q1 Q2 H) as [-> ->]. done.
  - rewrite E1, E2 in *. simplify_eq.
    change (Quality d1 +:+ "-mp4" = Quality d2 +:+ "-mp4") in H.
    apply string_app_inv_tail in H. by rewrite H.
Qed.

(** The loop keeps a candidate exactly when [keep_first] does, as long as
    the keys in [seen] are those of the triples in [earlier]. *)
Lemma parseLoop_keep_first (l : list ytdlpFormat) :
  ∀ (seen : gmap string bool) (acc : list Format)
    (earlier : list (string * string * string)),
    (∀ d, normal d →
          default false (seen !! dedupKey (Type_ d) (Quality d) (Ext d)) = true
          ↔ triple d ∈ earlier) →
    (fold_left parseStep l (seen, acc)).2
    = acc ++ keep_first earlier (omap candidate l).
Proof.
  induction l as [|f l IH]; intros seen acc earlier Inv; simpl.
  { by rewrite app_nil_r. }
  unfold parseStep at 2. unfold candidate at 1.
  destruct (classify f) as [ty q| | | |] eqn:Hc; simpl; try by apply IH.
  set (d := {| ID := ytFormatID f; Type_ := ty; Quality := q;
               Ext := ytExt f; Size := ytFilesize f |}).
  assert (Hn : normal d).
  { apply (candidate_normal f). unfold candidate. by rewrite Hc. }
  pose proof (Inv d Hn) as Hd. simpl in Hd.
  destruct (default false (seen !! dedupKey ty q (ytExt f))) eqn:Hs.
  - rewrite decide_True by (by apply Hd). by apply IH.
  - rewrite decide_False by (intros Hin; apply Hd in Hin; done).
    rewrite (IH _ _ (triple d :: earlier)).
    + by rewrite <- app_assoc.
    + intros d' Hn'. rewrite elem_of_cons.
      destruct (decide (dedupKey (Type_ d') (Quality d') (Ext d')
                        = dedupKey ty q (ytExt f))) as [Heq|Hne].
      * rewrite Heq, lookup_insert_eq. simpl. split; [intros _|done].
        left. by apply (dedupKey_inj d' d).
      * rewrite lookup_insert_ne by done. rewrite (Inv d' Hn').
        split; [by right|]. intros [Htr|?]; [|done].
        exfalso. apply Hne. unfold triple in Htr. simpl in Htr.
        by injection Htr as -> -> ->.
Qed.

Lemma parseFormats_keep_first (l : list ytdlpFormat) :
  parseFormats l = keep_first [] (omap candidate l).
Proof.
  unfold parseFormats. rewrite (parseLoop_keep_first l ∅ [] []); [done|].
  intros d _. rewrite lookup_empty. simpl. split; [done|].
  intros H. by apply elem_of_nil in H.
Qed.

Lemma keep_first_fresh (l : list Format) :
  ∀ earlier d, d ∈ keep_first earlier l → triple d ∉ earlier.
Proof.
  induction l as [|x l IH]; intros earlier d Hd; simpl in Hd.
  { by apply elem_of_nil in Hd. }
  destruct (decide (triple x ∈ earlier)) as [Hin|Hnin].
  - by apply IH.
  - apply elem_of_cons in Hd as [->|Hd]; [done|].
    apply IH in Hd. intros ?. apply Hd. by right.
Qed.

Lemma keep_first_NoDup (l : list Format) :
  ∀ earlier, NoDup (map triple (keep_first earlier l)).
Proof.
  induction l as [|x l IH]; intros earlier; simpl.
  { constructor. }
  destruct (decide (triple x ∈ earlier)); [apply IH|].
  simpl. constructor; [|apply IH].
  intros Hin. apply list_elem_of_fmap in Hin as (d & Heq & Hd).
  apply keep_first_fresh in Hd. apply Hd. rewrite <- Heq. by left.
Qed.

Lemma keep_first_sublist (l : list Format) :
  ∀ earlier, sublist (keep_first earlier l) l.
Proof.
  induction l as [|x l IH]; intros earlier; simpl.
  { constructor. }
  destruct (decide (triple x ∈ earlier)).
  - apply sublist_cons, IH.
  - apply sublist_skip, IH.
Qed.

Lemma parseFormats_candidates (l : list ytdlpFormat) (d : Format) :
  d ∈ parseFormats l → ∃ f, f ∈ l ∧ candidate f = Some d.
Proof.
  rewrite parseFormats_keep_first. intros Hd.
  assert (Hs := keep_first_sublist (omap candidate l) []).
  apply (elem_of_sublist _ _ d Hd) in Hs.
  apply list_elem_of_omap in Hs as (f & Hf & Hc). eauto.
Qed.

Lemma keep_first_complete (l : list Format) :
  ∀ earlier c, c ∈ l →
    triple c ∈ earlier ∨ ∃ d, d ∈ keep_first earlier l ∧ triple d = triple c.
Proof.
  induction l as [|x l IH]; intros earlier c Hc; simpl.
  { by apply elem_of_nil in Hc. }
  apply elem_of_cons in Hc as [->|Hc].
  - destruct (decide (triple x ∈ earlier)); [by left|].
    right. exists x. split; [by left|done].
  - destruct (decide (triple x ∈ earlier)) as [Hin|Hnin].
    + by apply IH.
    + destruct (IH (triple x :: earlier) c Hc) as [Hin|(d & Hd & Heq)].
      * apply elem_of_cons in Hin as [Heq|Hin]; [|by left].
        right. exists x. split; [by left|done].
      * right. exists d. split; [by right|done].
Qed.

Lemma keep_first_is_first (l : list Format) :
  ∀ earlier d, d ∈ keep_first earlier l →
    ∃ i : nat, l !! i = Some d
      ∧ ∀ (j : nat) c, (j < i)%nat → l !! j = Some c → triple c ≠ triple d.
Proof.
  induction l as [|x l IH]; intros earlier d Hd; simpl in Hd.
  { by apply elem_of_nil in Hd. }
  destruct (decide (triple x ∈ earlier)) as [Hin|Hnin].
  - pose proof (keep_first_fresh _ _ _ Hd) as Hfresh.
    destruct (IH _ _ Hd) as (i & Hi & Hfirst).
    exists (S i). split; [done|]. intros [|j] c Hj Hc; simpl in Hc.
    + injection Hc as <-. intros Heq. apply Hfresh. by rewrite <- Heq.
    + apply (Hfirst j); [lia|done].
  - apply elem_of_cons in Hd as [->|Hd].
    + exists 0%nat. split; [done|]. intros j c Hj. lia.
    + pose proof (keep_first_fresh _ _ _ Hd) as Hfresh.
      destruct (IH _ _ Hd) as (i & Hi & Hfirst).
      exists (S i). split; [done|]. intros [|j] c Hj Hc; simpl in Hc.
      * injection Hc as <-. intros Heq. apply Hfresh. rewrite <- Heq. by left.
      * apply (Hfirst j); [lia|done].
Qed.

Lemma parseStep_skip (st : gmap string bool * list Format) (f : ytdlpFormat) :
  candidate f = None → parseStep st f = st.
Proof. unfold candidate, parseStep. by destruct (classify f). Qed.

Lemma classify_other_container (f : ytdlpFormat) :
  ytVCodec f ≠ "none" → ytExt f ≠ "mp4" →
  classify f = SkipNoID ∨ classify f = SkipContainer.
Proof.
  intros Hv He. unfold classify.
  apply String.eqb_neq in Hv. apply String.eqb_neq in He.
  rewrite Hv, He. simpl. destruct (String.eqb (ytFormatID f) ""); auto.
Qed.

(** ** Properties of the normalizer *)

(** C6: the output of the normalizer has no two descriptors with the same
    (kind, quality label, container) triple; of the inputs that map to one
    triple the first, in input order, is the one kept, the later ones are
    dropped, and the kept descriptors stand in input order. *)
Theorem parseFormats_dedup_first_wins (ytFormats : list ytdlpFormat) :
  NoDup (map triple (parseFormats ytFormats))
  ∧ parseFormats ytFormats = keep_first [] (omap candidate ytFormats)
  ∧ sublist (parseFormats ytFormats) (omap candidate ytFormats)
  ∧ (∀ c, c ∈ omap candidate ytFormats →
          ∃ d, d ∈ parseFormats ytFormats ∧ triple d = triple c)
  ∧ (∀ d, d ∈ parseFormats ytFormats →
          ∃ i : nat, omap candidate ytFormats !! i = Some d
            ∧ ∀ (j : nat) c, (j < i)%nat →
                omap candidate ytFormats !! j = Some c →
                triple c ≠ triple d).
Proof.
  rewrite parseFormats_keep_first. repeat split.
  - apply keep_first_NoDup.
  - apply keep_first_sublist.
  - intros c Hc. destruct (keep_first_complete _ [] c Hc) as [Hin|H]; [|done].
    by apply elem_of_nil in Hin.
  - apply keep_first_is_first.
Qed.

(** C7: no descriptor of kind video with a container other than mp4 is in
    the output of the normalizer, and a raw encoding with a video track and
    another container is skipped: the output is the one of the input
    without it. *)
Theorem normalizer_video_only_mp4 (ytFormats : list ytdlpFormat) :
  (∀ d, d ∈ parseFormats ytFormats → Type_ d = "video" → Ext d = "mp4")
  ∧ (∀ before f after,
        ytFormats = before ++ f :: after →
        ytVCodec f ≠ "none" → ytExt f ≠ "mp4" →
        parseFormats ytFormats = parseFormats (before ++ after)).
Proof.
  split.
  - intros d Hd Hty.
    destruct (parseFormats_candidates _ _ Hd) as (f & _ & Hc).
    destruct (candidate_normal _ _ Hc) as [[Ha _]|[_ He]]; [|done].
    rewrite Ha in Hty. discriminate.
  - intros before f after -> Hv He. unfold parseFormats.
    rewrite !fold_left_app. simpl. rewrite parseStep_skip; [done|].
    unfold candidate.
    by destruct (classify_other_container f Hv He) as [-> | ->].
Qed.

(** C10: a raw encoding whose video codec field is the empty string is
    treated as video whatever its audio codec field is: it is never skipped
    as track-less, it is never kept as audio, it is subject to the mp4
    filter, and with an identifier, the mp4 container and a height it
    yields a video descriptor. *)
Theorem empty_vcodec_is_video (f : ytdlpFormat) :
  ytVCodec f = "" →
  classify f ≠ SkipNoTrack
  ∧ (∀ ty q, classify f = Keep ty q → ty = "video" ∧ ytExt f = "mp4")
  ∧ (ytFormatID f ≠ "" → ytExt f ≠ "mp4" → classify f = SkipContainer)
  ∧ (ytFormatID f ≠ "" → ytExt f = "mp4" → 0 < ytHeight f →
     parseFormats [f]
     = [ {| ID := ytFormatID f; Type_ := "video";
            Quality := Itoa (ytHeight f) +:+ "p"; Ext := "mp4";
            Size := ytFilesize f |} ]).
Proof.
  intros Hv. unfold classify. rewrite Hv. simpl.
  split; [|split; [|split]].
  - repeat case_match; done.
  - intros ty q H. repeat case_match; simplify_eq; (split; [done|]);
      match goal with
      | H : negb (String.eqb _ "mp4") = false |- _ =>
          apply negb_false_iff, String.eqb_eq in H; exact H
      end.
  - intros Hid He. apply String.eqb_neq in Hid. apply String.eqb_neq in He.
    by rewrite Hid, He.
  - intros Hid He Hh. unfold parseFormats, parseStep, classify. simpl.
    apply String.eqb_neq in Hid. rewrite Hid, Hv, He. simpl.
    apply Z.ltb_lt in Hh. rewrite Hh. simpl. rewrite lookup_empty. done.
Qed.

Lemma FormatFloat0_integer (x : Q) (n : Z) :
  0 < n → Qeq x (n # 1) → FormatFloat0 x = Itoa n.
Proof.
  intros Hn Hx. unfold Qeq in Hx. simpl in Hx.
  assert (Hnum : Qnum x = n * Z.pos (Qden x)) by lia.
  unfold FormatFloat0, round_half_even. rewrite Hnum.
  destruct (Z.ltb_spec (n * Z.pos (Qden x)) 0); [lia|].
  rewrite Z.div_mul, Z.mod_mul by lia.
  replace (2 * 0 ?= Z.pos (Qden x)) with Lt; [done|].
  symmetry. apply Z.compare_lt_iff. lia.
Qed.

Lemma candidate_audio_bitrate (r : ytdlpFormat) (n : Z) :
  ytFormatID r ≠ "" → ytVCodec r = "none" → ytACodec r ≠ "none" →
  0 < n → Qeq (ytABR r) (n # 1) →
  candidate r
  = Some {| ID := ytFormatID r; Type_ := "audio";
            Quality := Itoa n +:+ "kbps"; Ext := ytExt r;
            Size := ytFilesize r |}.
Proof.
  intros Hid Hv Ha Hn Hx. unfold candidate, classify.
  apply String.eqb_neq in Hid. apply String.eqb_neq in Ha.
  rewrite Hid, Hv, Ha. simpl.
  assert (0 < Qnum (ytABR r)) as Hpos.
  { unfold Qeq in Hx. simpl in Hx. nia. }
  apply Z.ltb_lt in Hpos. rewrite Hpos.
  by rewrite (FormatFloat0_integer _ n).
Qed.

Lemma candidate_video_height (r : ytdlpFormat) :
  ytFormatID r ≠ "" → ytVCodec r ≠ "none" → ytExt r = "mp4" →
  0 < ytHeight r →
  candidate r
  = Some {| ID := ytFormatID r; Type_ := "video";
            Quality := Itoa (ytHeight r) +:+ "p"; Ext := "mp4";
            Size := ytFilesize r |}.
Proof.
  intros Hid Hv He Hh. unfold candidate, classify.
  apply String.eqb_neq in Hid. apply String.eqb_neq in Hv.
  apply Z.ltb_lt in Hh. rewrite Hid, Hv, He, Hh. done.
Qed.

(** C5: for the three raw encodings of the example (a 1080p mp4 video
    "137", a 128 kbps audio "140", a 160 kbps webm audio "251"), whatever
    their other fields are, the normalizer yields the 1080p video
    descriptor and the two audio descriptors "128kbps" and "160kbps", and
    the ranker takes the 160 kbps audio as best and emits, after the
    best-audio offer, the offer "137+251" labelled
    "1080p Full HD (видео + аудио)" and the offer "137" labelled
    "1080p Full HD (только видео)": the labels are in Russian. *)
Theorem spec_example_offers (r137 r140 r251 : ytdlpFormat) :
  ytFormatID r137 = "137" → ytVCodec r137 ≠ "none" → ytExt r137 = "mp4" →
  ytHeight r137 = 1080 →
  ytFormatID r140 = "140" → ytVCodec r140 = "none" → ytACodec r140 ≠ "none" →
  Qeq (ytABR r140) (128 # 1) →
  ytFormatID r251 = "251" → ytVCodec r251 = "none" → ytACodec r251 ≠ "none" →
  Qeq (ytABR r251) (160 # 1) → ytExt r251 = "webm" →
  parseFormats [r137; r140; r251]
  = [ {| ID := "137"; Type_ := "video"; Quality := "1080p"; Ext := "mp4";
         Size := ytFilesize r137 |};
      {| ID := "140"; Type_ := "audio"; Quality := "128kbps";
         Ext := ytExt r140; Size := ytFilesize r140 |};
      {| ID := "251"; Type_ := "audio"; Quality := "160kbps"; Ext := "webm";
         Size := ytFilesize r251 |} ]
  ∧ findBestAudio (parseFormats [r137; r140; r251])
    = Some {| ID := "251"; Type_ := "audio"; Quality := "160kbps";
              Ext := "webm"; Size := ytFilesize r251 |}
  ∧ GetBestFormats (parseFormats [r137; r140; r251])
    = [ {| ID := "251"; Type_ := "audio";
           Quality := "Лучшее аудио (160kbps)"; Ext := "webm";
           Size := ytFilesize r251 |};
        {| ID := "137+251"; Type_ := "video";
           Quality := "1080p Full HD (видео + аудио)"; Ext := "mp4";
           Size := wrap64 (ytFilesize r137 + ytFilesize r251) |};
        {| ID := "137"; Type_ := "video_only";
           Quality := "1080p Full HD (только видео)"; Ext := "mp4";
           Size := ytFilesize r137 |} ].
Proof.
  intros I1 V1 E1 H1 I2 V2 A2 B2 I3 V3 A3 B3 E3.
  assert (parseFormats [r137; r140; r251]
          = [ {| ID := "137"; Type_ := "video"; Quality := "1080p";
                 Ext := "mp4"; Size := ytFilesize r137 |};
              {| ID := "140"; Type_ := "audio"; Quality := "128kbps";
                 Ext := ytExt r140; Size := ytFilesize r140 |};
              {| ID := "251"; Type_ := "audio"; Quality := "160kbps";
                 Ext := "webm"; Size := ytFilesize r251 |} ]) as ->.
  { rewrite parseFormats_keep_first. simpl.
    rewrite (candidate_video_height r137), (candidate_audio_bitrate r140 128),
      (candidate_audio_bitrate r251 160); try done; try lia;
      try (rewrite ?I1, ?I2, ?I3; done).
    rewrite I1, I2, I3, H1, E3. reflexivity. }
  split; [done|]. split; [reflexivity|].
  unfold GetBestFormats, findBestAudio. reflexivity.
Qed.

Lemma spec_example_offers_witness :
  (ytFormatID raw137 = "137" ∧ ytVCodec raw137 ≠ "none"
   ∧ ytExt raw137 = "mp4" ∧ ytHeight raw137 = 1080
   ∧ ytFormatID raw140 = "140" ∧ ytVCodec raw140 = "none"
   ∧ ytACodec raw140 ≠ "none" ∧ Qeq (ytABR raw140) (128 # 1)
   ∧ ytFormatID raw251 = "251" ∧ ytVCodec raw251 = "none"
   ∧ ytACodec raw251 ≠ "none" ∧ Qeq (ytABR raw251) (160 # 1)
   ∧ ytExt raw251 = "webm")
  ∧ parseFormats spec_example
    = [ {| ID := "137"; Type_ := "video"; Quality := "1080p"; Ext := "mp4";
           Size := 0 |};
        {| ID := "140"; Type_ := "audio"; Quality := "128kbps";
           Ext := "m4a"; Size := 0 |};
        {| ID := "251"; Type_ := "audio"; Quality := "160kbps";
           Ext := "webm"; Size := 0 |} ]
  ∧ findBestAudio (parseFormats spec_example)
    = Some {| ID := "251"; Type_ := "audio"; Quality := "160kbps";
              Ext := "webm"; Size := 0 |}
  ∧ GetBestFormats (parseFormats spec_example)
    = [ {| ID := "251"; Type_ := "audio";
           Quality := "Лучшее аудио (160kbps)"; Ext := "webm";
           Size := 0 |};
        {| ID := "137+251"; Type_ := "video";
           Quality := "1080p Full HD (видео + аудио)"; Ext := "mp4";
           Size := 0 |};
        {| ID := "137"; Type_ := "video_only";
           Quality := "1080p Full HD (только видео)"; Ext := "mp4";
           Size := 0 |} ].
Proof.
  split.
  - repeat split; reflexivity || discriminate.
  - apply (spec_example_offers raw137 raw140 raw251);
      reflexivity || discriminate.
Defined.

(** C5, as the specification words it: on the example no offer has the
    identifier "137+251" and the label "1080p Full HD (video + audio)". *)
Lemma spec_example_english_label_absent :
  ¬ (∃ merged,
        merged ∈ GetBestFormats (parseFormats spec_example)
        ∧ ID merged = "137+251"
        ∧ Quality merged = "1080p Full HD (video + audio)").
Proof.
  intros (merged & Hm & Hid & Hq).
  assert (GetBestFormats (parseFormats spec_example)
          = [ bestAudioOffer {| ID := "251"; Type_ := "audio";
                                Quality := "160kbps"; Ext := "webm";
                                Size := 0 |};
              mergedOffer 1080
                {| ID := "137"; Type_ := "video"; Quality := "1080p";
                   Ext := "mp4"; Size := 0 |}
                {| ID := "251"; Type_ := "audio"; Quality := "160kbps";
                   Ext := "webm"; Size := 0 |};
              videoOnlyOffer 1080
                {| ID := "137"; Type_ := "video"; Quality := "1080p";
                   Ext := "mp4"; Size := 0 |} ]) as E
    by (vm_compute; reflexivity).
  rewrite E in Hm.
  repeat (apply elem_of_cons in Hm as [-> | Hm]);
    try (by apply elem_of_nil in Hm); vm_compute in Hq; discriminate.
Qed.

Lemma normalizer_video_only_mp4_witness :
  let d := {| ID := "137"; Type_ := "video"; Quality := "1080p";
              Ext := "mp4"; Size := 0 |} in
  (d ∈ parseFormats [raw248; raw137] ∧ Type_ d = "video" ∧ Ext d = "mp4")
  ∧ ([raw248; raw137] = [] ++ raw248 :: [raw137]
     ∧ ytVCodec raw248 ≠ "none" ∧ ytExt raw248 ≠ "mp4"
     ∧ parseFormats [raw248; raw137] = parseFormats ([] ++ [raw137])).
Proof.
  intros d.
  destruct (normalizer_video_only_mp4 [raw248; raw137]) as [Hvideo Hskip].
  assert (Hd : d ∈ parseFormats [raw248; raw137]).
  { replace (parseFormats [raw248; raw137]) with [d] by reflexivity.
    apply list_elem_of_singleton. reflexivity. }
  split.
  - split; [exact Hd|]. split; [reflexivity|].
    exact (Hvideo d Hd eq_refl).
  - assert (Hv : ytVCodec raw248 ≠ "none") by discriminate.
    assert (He : ytExt raw248 ≠ "mp4") by discriminate.
    split; [reflexivity|]. split; [exact Hv|]. split; [exact He|].
    exact (Hskip [] raw248 [raw137] eq_refl Hv He).
Defined.

Lemma empty_vcodec_is_video_witness :
  ytVCodec rawNoCodec = "" ∧ ytACodec rawNoCodec = ""
  ∧ classify rawNoCodec ≠ SkipNoTrack
  ∧ classify rawNoCodec = Keep "video" "720p"
  ∧ parseFormats [rawNoCodec]
    = [ {| ID := "18"; Type_ := "video"; Quality := "720p"; Ext := "mp4";
           Size := 0 |} ].
Proof.
  destruct (empty_vcodec_is_video rawNoCodec eq_refl)
    as (Htrack & Hkind & Hfilter & Hout).
  split; [reflexivity|]. split; [reflexivity|]. split; [exact Htrack|].
  split; [reflexivity|].
  refine (Hout _ eq_refl _); [discriminate | reflexivity].
Defined.

(** ** Lemmas on the ranker *)

Lemma scanTier_shape (res : Z) (bestAudio : option Format)
      (formats best : list Format) :
  ∃ extra, scanTier res bestAudio formats best = best ++ extra
           ∧ tierShape res bestAudio extra.
Proof.
  induction formats as [|f formats IH]; simpl.
  - exists []. split; [by rewrite app_nil_r | constructor].
  - destruct (String.eqb (Type_ f) "video" && HasPrefix (Quality f) (Itoa res)).
    + destruct bestAudio as [a|] eqn:E.
      * exists [mergedOffer res f a; videoOnlyOffer res f].
        split; [by rewrite <- app_assoc | by constructor].
      * exists [videoOnlyOffer res f]. split; [done | by constructor].
    + exact IH.
Qed.

Lemma GetBestFormats_shape (formats : list Format) :
  ∃ audio t360 t480 t720 t1080,
    GetBestFormats formats = audio ++ t360 ++ t480 ++ t720 ++ t1080
    ∧ (audio = [] ∨ ∃ a, audio = [bestAudioOffer a])
    ∧ tierShape 360 (findBestAudio formats) t360
    ∧ tierShape 480 (findBestAudio formats) t480
    ∧ tierShape 720 (findBestAudio formats) t720
    ∧ tierShape 1080 (findBestAudio formats) t1080.
Proof.
  unfold GetBestFormats, resolutions. simpl.
  set (ba := findBestAudio formats).
  set (audio := match ba with Some a => [bestAudioOffer a] | None => [] end).
  destruct (scanTier_shape 360 ba formats audio) as (t1 & -> & H1).
  destruct (scanTier_shape 480 ba formats (audio ++ t1)) as (t2 & -> & H2).
  destruct (scanTier_shape 720 ba formats ((audio ++ t1) ++ t2))
    as (t3 & -> & H3).
  destruct (scanTier_shape 1080 ba formats (((audio ++ t1) ++ t2) ++ t3))
    as (t4 & -> & H4).
  exists audio, t1, t2, t3, t4. rewrite <- !app_assoc.
  split; [done|]. split; [|done].
  subst audio. destruct ba; eauto.
Qed.

(** ** Properties of the ranker *)

(** C8: the ranker emits at most one best-audio offer and, for each of the
    tiers 360, 480, 720 and 1080, at most one merged offer and at most one
    video-only offer; every offer is of one of these nine sorts, and the
    output has at most nine entries. *)
Theorem GetBestFormats_at_most_nine (formats : list Format) :
  (length (GetBestFormats formats) ≤ 9)%nat
  ∧ (length (filter (λ d, Type_ d = "audio") (GetBestFormats formats))
     ≤ 1)%nat
  ∧ Forall (λ res,
      (length (filter (λ d, Type_ d = "video"
                            ∧ Quality d = resLabel res +:+ " (видео + аудио)")
                      (GetBestFormats formats)) ≤ 1)%nat
      ∧ (length (filter (λ d, Type_ d = "video_only"
                              ∧ Quality d = resLabel res +:+ " (только видео)")
                        (GetBestFormats formats)) ≤ 1)%nat)
      resolutions
  ∧ Forall (λ d,
      Type_ d = "audio"
      ∨ ∃ res, res ∈ resolutions
          ∧ ((Type_ d = "video"
              ∧ Quality d = resLabel res +:+ " (видео + аудио)")
             ∨ (Type_ d = "video_only"
                ∧ Quality d = resLabel res +:+ " (только видео)")))
      (GetBestFormats formats).
Proof.
  destruct (GetBestFormats_shape formats)
    as (audio & t1 & t2 & t3 & t4 & -> & Ha & H1 & H2 & H3 & H4).
  split; [|split; [|split]].
  - destruct Ha as [-> | [a ->]]; destruct H1, H2, H3, H4; simpl; lia.
  - destruct Ha as [-> | [a ->]]; destruct H1, H2, H3, H4;
      vm_compute; lia.
  - unfold resolutions.
    destruct Ha as [-> | [a ->]]; destruct H1, H2, H3, H4;
      repeat constructor; vm_compute; lia.
  - assert (Hin : ∀ res, res ∈ resolutions → ∀ t,
              tierShape res (findBestAudio formats) t →
              Forall (λ d,
                Type_ d = "audio"
                ∨ ∃ res, res ∈ resolutions
                    ∧ ((Type_ d = "video"
                        ∧ Quality d = resLabel res +:+ " (видео + аудио)")
                       ∨ (Type_ d = "video_only"
                          ∧ Quality d = resLabel res +:+ " (только видео)")))
                t).
    { intros res Hres t Ht. destruct Ht as [|f Hnone|f a Hsome].
      - apply Forall_nil_2.
      - apply Forall_cons_2; [|apply Forall_nil_2].
        right. exists res. split; [done|]. by right.
      - apply Forall_cons_2; [|apply Forall_cons_2; [|apply Forall_nil_2]].
        + right. exists res. split; [done|]. by left.
        + right. exists res. split; [done|]. by right. }
    repeat (apply Forall_app; split).
    + destruct Ha as [-> | [a ->]]; [apply Forall_nil_2|].
      apply Forall_cons_2; [by left | apply Forall_nil_2].
    + apply (Hin 360); [apply list_elem_of_In; simpl; tauto | done].
    + apply (Hin 480); [apply list_elem_of_In; simpl; tauto | done].
    + apply (Hin 720); [apply list_elem_of_In; simpl; tauto | done].
    + apply (Hin 1080); [apply list_elem_of_In; simpl; tauto | done].
Qed.

(** ** Properties of the download orchestrator *)

(** C4: after the subprocess has exited successfully, [DownloadToFile]
    looks the produced file up with the pattern built on the timestamp of
    the job; it returns the error "could not find downloaded file" when the
    lookup fails or finds no match, and with one match or more it goes on
    with the first one, whatever the others are: a lookup that finds
    several matches is not an error. *)
Theorem DownloadToFile_uses_first_match
        (w : Orchestrator.world) (ytdlpPath url formatID tempDir stdout : string) :
  Orchestrator.ValidateURL w url = None →
  Orchestrator.Output w ytdlpPath
    (Orchestrator.downloadArgs w url formatID tempDir)
  = Orchestrator.CmdOk stdout →
  ((Orchestrator.Glob w (Orchestrator.outputPattern w tempDir) = None
    ∨ Orchestrator.Glob w (Orchestrator.outputPattern w tempDir) = Some []) →
   Orchestrator.DownloadToFile w ytdlpPath url formatID tempDir
   = Orchestrator.fail "could not find downloaded file" [])
  ∧ (∀ first others size,
        Orchestrator.Glob w (Orchestrator.outputPattern w tempDir)
        = Some (first :: others) →
        Orchestrator.Stat w first = inl size → size ≠ 0 →
        Orchestrator.err
          (Orchestrator.DownloadToFile w ytdlpPath url formatID tempDir)
        = None
        ∧ Orchestrator.filePath
            (Orchestrator.DownloadToFile w ytdlpPath url formatID tempDir)
          = first).
Proof.
  intros Hvalid Hcmd. unfold Orchestrator.DownloadToFile.
  rewrite Hvalid, Hcmd. split.
  - intros [-> | ->]; reflexivity.
  - intros first others size -> -> Hsize.
    apply Z.eqb_neq in Hsize. rewrite Hsize. done.
Qed.

Lemma DownloadToFile_uses_first_match_witness :
  let w := sampleWorld [sampleMatch1; sampleMatch2] in
  Orchestrator.ValidateURL w "https://youtu.be/abc" = None
  ∧ Orchestrator.Glob w (Orchestrator.outputPattern w "/tmp/viddown")
    = Some [sampleMatch1; sampleMatch2]
  ∧ Orchestrator.err
      (Orchestrator.DownloadToFile w "yt-dlp" "https://youtu.be/abc"
                                   "137+251" "/tmp/viddown")
    = None
  ∧ Orchestrator.filePath
      (Orchestrator.DownloadToFile w "yt-dlp" "https://youtu.be/abc"
                                   "137+251" "/tmp/viddown")
    = sampleMatch1.
Proof.
  intros w. split; [reflexivity|]. split; [reflexivity|].
  refine (proj2 (DownloadToFile_uses_first_match
                   w "yt-dlp" "https://youtu.be/abc" "137+251"
                   "/tmp/viddown" "" eq_refl eq_refl)
                sampleMatch1 [sampleMatch2] 1024 eq_refl eq_refl _).
  discriminate.
Defined.

(** C4, as the specification words it: with two matches for the pattern
    [DownloadToFile] returns no error; it returns the first match and the
    name behind its timestamp prefix. *)
Lemma DownloadToFile_two_matches_no_error :
  Orchestrator.Glob (sampleWorld [sampleMatch1; sampleMatch2])
    (Orchestrator.outputPattern (sampleWorld [sampleMatch1; sampleMatch2])
                                "/tmp/viddown")
  = Some [sampleMatch1; sampleMatch2]
  ∧ Orchestrator.DownloadToFile (sampleWorld [sampleMatch1; sampleMatch2])
      "yt-dlp" "https://youtu.be/abc" "137+251" "/tmp/viddown"
    = {| Orchestrator.filePath := sampleMatch1;
         Orchestrator.filename := "clip.mp4";
         Orchestrator.err := None;
         Orchestrator.removed := [] |}.
Proof. split; reflexivity. Qed.

(** ** Lemmas on the handler *)

Import Gate Handler.

(** The exit paths of [ServeHTTP], one goal for each; the equations of the
    gate test and of the result of [DownloadToFile] are kept as [Hgate]
    and [Hdl]. *)
Ltac handler_paths e r s :=
  unfold ServeHTTP, call, ServeHTTP_body;
  unfold when, emit, defer, return_, tryAcquire, TryAcquire,
         mbind, M_bind, mret, M_ret;
  destruct (String.eqb (Method r) "GET"); simpl;
  [ destruct (String.eqb (Get (Query r) "url") ""); simpl;
    [ | destruct (QueryUnescape e (Get (Query r) "url")) as [decodedURL|];
        simpl;
        [ destruct (held s <? capacity s)%nat eqn:Hgate; simpl;
          [ destruct (os_MkdirAll e tempDir); simpl;
            [ destruct (DownloadToFile e decodedURL
                          (if String.eqb (Get (Query r) "format_id") ""
                           then "best" else Get (Query r) "format_id")
                          tempDir
                          (String.eqb (Get (Query r) "type") "audio"))
                as [[tempFile filename] [msg|]] eqn:Hdl; simpl;
              [ | destruct (os_Open e tempFile); simpl;
                  [ destruct (file_Stat e tempFile) as [size|]; simpl;
                    [ destruct (String.eqb (filepath_Ext filename) "") eqn:Hext;
                      simpl;
                      destruct (io_Copy e tempFile) as [written []]; simpl
                    | ]
                  | ] ]
            | ]
          | ]
        | ] ]
  | ].

Lemma guarded_sound (tr : list event) :
  ∀ acq, guarded acq tr = true →
    ∀ before ev after, tr = before ++ ev :: after → isDownload ev = true →
      acq || existsb isAcquired before = true.
Proof.
  induction tr as [|x tr IH]; intros acq Hg before ev after Heq Hev.
  { by destruct before. }
  simpl in Hg. apply andb_prop in Hg as [Hx Hg].
  destruct before as [|b before]; simpl in Heq; injection Heq as -> ->.
  - rewrite Hev in Hx. rewrite Hx. done.
  - simpl. rewrite orb_assoc. by apply (IH _ Hg before ev after).
Qed.

(** ** Properties of the handler *)

(** C1: in every run of the handler a permit has been acquired (a
    [TryAcquire] that returned true) before [DownloadToFile] is called; the
    permit is acquired at most once and released exactly as often as it
    was acquired, the release being the last thing the handler does; the
    number of held permits is after the run what it was before.  This holds
    for every environment, hence on every exit path. *)
Theorem ServeHTTP_permit_balanced (e : env) (r : Request) (s : Semaphore) :
  (∀ before ev after,
      trace (ServeHTTP e r s) = before ++ ev :: after →
      isDownload ev = true → existsb isAcquired before = true)
  ∧ count isRelease (trace (ServeHTTP e r s))
    = count isAcquired (trace (ServeHTTP e r s))
  ∧ (count isAcquired (trace (ServeHTTP e r s)) ≤ 1)%nat
  ∧ (existsb isAcquired (trace (ServeHTTP e r s)) = true →
     last (trace (ServeHTTP e r s)) = Some SemRelease)
  ∧ held (sem (ServeHTTP e r s)) = held s
  ∧ capacity (sem (ServeHTTP e r s)) = capacity s.
Proof.
  split.
  { intros before ev after Heq Hev.
    apply (guarded_sound _ false) with (2 := Heq) (3 := Hev).
    clear Heq. handler_paths e r s; reflexivity. }
  handler_paths e r s; repeat split; try reflexivity;
    try (unfold count; simpl; lia); try discriminate.
Qed.

Lemma ServeHTTP_permit_balanced_witness :
  isDownload (CallDownloadToFile "https://youtu.be/abc" "137+251" tempDir false)
  = true
  ∧ existsb isAcquired [SemTryAcquire true; Log "INFO" "Starting download";
                        MkdirAll tempDir] = true
  ∧ count isRelease (trace (ServeHTTP (sampleEnv "clip.mp4") sampleRequest freeGate))
    = 1%nat
  ∧ last (trace (ServeHTTP (sampleEnv "clip.mp4") sampleRequest freeGate))
    = Some SemRelease
  ∧ held (sem (ServeHTTP (sampleEnv "clip.mp4") sampleRequest freeGate)) = 0%nat.
Proof.
  destruct (ServeHTTP_permit_balanced (sampleEnv "clip.mp4") sampleRequest
                                       freeGate)
    as (Hbefore & Hcount & Hone & Hlast & Hheld & Hcap).
  assert (Htrace : trace (ServeHTTP (sampleEnv "clip.mp4") sampleRequest
                                    freeGate)
                   = [SemTryAcquire true; Log "INFO" "Starting download";
                      MkdirAll tempDir]
                     ++ CallDownloadToFile "https://youtu.be/abc" "137+251"
                                           tempDir false
                     :: [OsOpen "/tmp/viddown/1700000000000000000_clip.mp4";
                         FileStat "/tmp/viddown/1700000000000000000_clip.mp4";
                         SetHeader "Content-Type" "video/mp4";
                         SetHeader "Content-Length" "1024";
                         SetHeader "Content-Disposition"
                           ("attachment; filename=" +:+ dq +:+ "clip.mp4"
                            +:+ dq +:+ "; filename*=UTF-8''clip.mp4");
                         SetHeader "X-Content-Type-Options" "nosniff";
                         SetHeader "Cache-Control" "no-cache";
                         IoCopy "/tmp/viddown/1700000000000000000_clip.mp4";
                         Log "INFO" "Download complete";
                         FileClose "/tmp/viddown/1700000000000000000_clip.mp4";
                         OsRemove "/tmp/viddown/1700000000000000000_clip.mp4";
                         SemRelease])
    by (vm_compute; reflexivity).
  split; [reflexivity|]. split; [exact (Hbefore _ _ _ Htrace eq_refl)|].
  split; [rewrite Hcount, Htrace; reflexivity|].
  split; [apply Hlast; rewrite Htrace; reflexivity | exact Hheld].
Defined.

(** C2: when [TryAcquire] returns false the handler reads the number of
    free permits for the log, answers 503 with the server-busy body and
    returns: that is all it does, so [DownloadToFile] is not called, no
    directory or file is made, nothing is deferred and the gate is left as
    it was. *)
Theorem ServeHTTP_busy_rejects (e : env) (r : Request) (s : Semaphore) :
  In (SemTryAcquire false) (trace (ServeHTTP e r s)) →
  trace (ServeHTTP e r s)
  = [ SemTryAcquire false; SemAvailable;
      Log "WARN" "Too many concurrent downloads";
      HttpError (errorBody "Server busy. Please try again in a moment.") 503 ]
  ∧ count isDownload (trace (ServeHTTP e r s)) = 0%nat
  ∧ sem (ServeHTTP e r s) = s
  ∧ (capacity s ≤ held s)%nat.
Proof.
  handler_paths e r s; intros Hin; simpl in Hin;
    try (exfalso; intuition discriminate).
  apply Nat.ltb_ge in Hgate. done.
Qed.

Lemma ServeHTTP_busy_rejects_witness :
  In (SemTryAcquire false)
     (trace (ServeHTTP (sampleEnv "clip.mp4") sampleRequest fullGate))
  ∧ trace (ServeHTTP (sampleEnv "clip.mp4") sampleRequest fullGate)
    = [ SemTryAcquire false; SemAvailable;
        Log "WARN" "Too many concurrent downloads";
        HttpError (errorBody "Server busy. Please try again in a moment.")
                  503 ]
  ∧ count isDownload
      (trace (ServeHTTP (sampleEnv "clip.mp4") sampleRequest fullGate))
    = 0%nat
  ∧ sem (ServeHTTP (sampleEnv "clip.mp4") sampleRequest fullGate) = fullGate.
Proof.
  assert (Hin : In (SemTryAcquire false)
                   (trace (ServeHTTP (sampleEnv "clip.mp4") sampleRequest
                                     fullGate)))
    by (vm_compute; left; reflexivity).
  destruct (ServeHTTP_busy_rejects (sampleEnv "clip.mp4") sampleRequest
                                    fullGate Hin)
    as (Htrace & Hnone & Hsem & _).
  split; [exact Hin|]. split; [exact Htrace|]. split; [exact Hnone|].
  exact Hsem.
Defined.

Ltac solve_suffix :=
  solve [ repeat first [ reflexivity | apply suffix_cons_r ] ].

(** C3: when [DownloadToFile] was called and returned a file without an
    error, the handler calls [os.Remove] once, on that file, and does so
    at the end of the request: the removal is followed by the release of
    the permit only.  This holds whatever the outcome of opening, of
    [Stat] and of the copy is. *)
Theorem ServeHTTP_removes_temp_file
        (e : env) (r : Request) (s : Semaphore)
        (u f t : string) (a : bool) (path name : string) :
  In (CallDownloadToFile u f t a) (trace (ServeHTTP e r s)) →
  DownloadToFile e u f t a = (path, name, None) →
  count isRemove (trace (ServeHTTP e r s)) = 1%nat
  ∧ In (OsRemove path) (trace (ServeHTTP e r s))
  ∧ [OsRemove path; SemRelease] `suffix_of` trace (ServeHTTP e r s).
Proof.
  intros Hin Hres. revert Hin.
  handler_paths e r s; intros Hin; simpl in Hin;
    repeat (destruct Hin as [Hin|Hin]; try discriminate);
    try contradiction;
    injection Hin as <- <- <- <-; rewrite Hdl in Hres;
    try discriminate; injection Hres as <- <-;
    (split; [reflexivity|]); (split; [simpl; tauto | solve_suffix]).
Qed.

Lemma ServeHTTP_removes_temp_file_witness :
  In (CallDownloadToFile "https://youtu.be/abc" "137+251" tempDir false)
     (trace (ServeHTTP (sampleEnv "clip.mp4") sampleRequest freeGate))
  ∧ DownloadToFile (sampleEnv "clip.mp4") "https://youtu.be/abc" "137+251"
                   tempDir false
    = ("/tmp/viddown/1700000000000000000_clip.mp4", "clip.mp4", None)
  ∧ count isRemove
      (trace (ServeHTTP (sampleEnv "clip.mp4") sampleRequest freeGate))
    = 1%nat
  ∧ In (OsRemove "/tmp/viddown/1700000000000000000_clip.mp4")
       (trace (ServeHTTP (sampleEnv "clip.mp4") sampleRequest freeGate)).
Proof.
  assert (Hin : In (CallDownloadToFile "https://youtu.be/abc" "137+251"
                                       tempDir false)
                   (trace (ServeHTTP (sampleEnv "clip.mp4") sampleRequest
                                     freeGate)))
    by (vm_compute; tauto).
  destruct (ServeHTTP_removes_temp_file
              (sampleEnv "clip.mp4") sampleRequest freeGate
              "https://youtu.be/abc" "137+251" tempDir false
              "/tmp/viddown/1700000000000000000_clip.mp4" "clip.mp4"
              Hin eq_refl)
    as (Hone & Hremoved & _).
  split; [exact Hin|]. split; [reflexivity|]. split; [exact Hone|].
  exact Hremoved.
Defined.

Lemma precededBy_sound (p q : event → bool) (tr : list event) :
  ∀ seen, precededBy p q seen tr = true →
    ∀ before ev after, tr = before ++ ev :: after → q ev = true →
      seen || existsb p before = true.
Proof.
  induction tr as [|x tr IH]; intros seen Hg before ev after Heq Hev.
  { by destruct before. }
  simpl in Hg. apply andb_prop in Hg as [Hx Hg].
  destruct before as [|b before]; simpl in Heq; injection Heq as -> ->.
  - rewrite Hev in Hx. rewrite Hx. done.
  - simpl. rewrite orb_assoc. by apply (IH _ Hg before ev after).
Qed.

(** C9: the Content-Type header of the download handler.  Whenever the
    handler copies a file to the response it has set the header
    Content-Type before, exactly once, and its value comes from the
    extension of the file name returned by [DownloadToFile]: a name without
    extension is given the extension .mp4, and when [mime.TypeByExtension]
    knows no media type for the extension the value is
    application/octet-stream.  The handler sets no other Content-Type. *)
Theorem ServeHTTP_content_type (e : env) (r : Request) (s : Semaphore) :
  (∀ v, In (SetHeader "Content-Type" v) (trace (ServeHTTP e r s)) →
     ∃ u f t a tempFile filename,
       In (CallDownloadToFile u f t a) (trace (ServeHTTP e r s))
       ∧ DownloadToFile e u f t a = (tempFile, filename, None)
       ∧ v = (let ext := if String.eqb (filepath_Ext filename) ""
                         then ".mp4" else filepath_Ext filename in
              if String.eqb (TypeByExtension e ext) ""
              then "application/octet-stream"
              else TypeByExtension e ext))
  ∧ (∀ path, In (IoCopy path) (trace (ServeHTTP e r s)) →
       count isContentType (trace (ServeHTTP e r s)) = 1%nat
       ∧ (∀ before ev after,
             trace (ServeHTTP e r s) = before ++ ev :: after →
             isCopy ev = true → existsb isContentType before = true)
       ∧ ∃ u f t a filename,
           In (CallDownloadToFile u f t a) (trace (ServeHTTP e r s))
           ∧ DownloadToFile e u f t a = (path, filename, None)
           ∧ In (SetHeader "Content-Type"
                   (let ext := if String.eqb (filepath_Ext filename) ""
                               then ".mp4" else filepath_Ext filename in
                    if String.eqb (TypeByExtension e ext) ""
                    then "application/octet-stream"
                    else TypeByExtension e ext))
                (trace (ServeHTTP e r s))).
Proof.
  split.
  - intros v.
    handler_paths e r s; intros Hin; simpl in Hin;
      repeat (destruct Hin as [Hin|Hin]; try discriminate);
      try contradiction;
      injection Hin as <-;
      (eexists _, _, _, _, tempFile, filename);
      (split; [simpl; tauto|]); (split; [exact Hdl|]);
      simpl; rewrite Hext; reflexivity.
  - intros path Hcopy. split; [|split].
    + revert Hcopy. handler_paths e r s; intros Hin; simpl in Hin;
        repeat (destruct Hin as [Hin|Hin]; try discriminate);
        try contradiction; reflexivity.
    + intros before ev after Heq Hev.
      apply (precededBy_sound isContentType isCopy _ false)
        with (2 := Heq) (3 := Hev).
      clear. handler_paths e r s; reflexivity.
    + revert Hcopy. handler_paths e r s; intros Hin; simpl in Hin;
        repeat (destruct Hin as [Hin|Hin]; try discriminate);
        try contradiction;
        injection Hin as <-;
        (eexists _, _, _, _, filename);
        (split; [simpl; tauto|]); (split; [exact Hdl|]);
        simpl; rewrite Hext; simpl; tauto.
Qed.

Lemma ServeHTTP_content_type_witness :
  In (IoCopy "/tmp/viddown/1700000000000000000_clip")
     (trace (ServeHTTP (sampleEnv "clip") sampleRequest freeGate))
  ∧ count isContentType
      (trace (ServeHTTP (sampleEnv "clip") sampleRequest freeGate)) = 1%nat
  ∧ ∃ filename,
      filename = "clip"
      ∧ In (SetHeader "Content-Type"
              (let ext := if String.eqb (filepath_Ext filename) ""
                          then ".mp4" else filepath_Ext filename in
               if String.eqb (TypeByExtension (sampleEnv "clip") ext) ""
               then "application/octet-stream"
               else TypeByExtension (sampleEnv "clip") ext))
           (trace (ServeHTTP (sampleEnv "clip") sampleRequest freeGate)).
Proof.
  assert (Hin : In (IoCopy "/tmp/viddown/1700000000000000000_clip")
                   (trace (ServeHTTP (sampleEnv "clip") sampleRequest
                                     freeGate)))
    by (vm_compute; tauto).
  split; [exact Hin|].
  destruct (proj2 (ServeHTTP_content_type (sampleEnv "clip") sampleRequest
                                          freeGate) _ Hin)
    as (Hone & _ & u & f & t & a & filename & _ & Hdl & Hheader).
  split; [exact Hone|].
  exists filename. split; [|exact Hheader].
  vm_compute in Hdl. by injection Hdl as _ <-.
Defined.

(** C9, as the specification words it: [.ytdl] has no media type and
    [.mp4] has the type video/mp4, yet for the file clip.ytdl the handler
    sets the Content-Type application/octet-stream, not the one of mp4. *)
Lemma content_type_unmapped_is_octet_stream :
  filepath_Ext "clip.ytdl" = ".ytdl"
  ∧ TypeByExtension (sampleEnv "clip.ytdl") ".ytdl" = ""
  ∧ TypeByExtension (sampleEnv "clip.ytdl") ".mp4" = "video/mp4"
  ∧ In (IoCopy "/tmp/viddown/1700000000000000000_clip.ytdl")
       (trace (ServeHTTP (sampleEnv "clip.ytdl") sampleRequest freeGate))
  ∧ In (SetHeader "Content-Type" "application/octet-stream")
       (trace (ServeHTTP (sampleEnv "clip.ytdl") sampleRequest freeGate))
  ∧ ¬ In (SetHeader "Content-Type" "video/mp4")
         (trace (ServeHTTP (sampleEnv "clip.ytdl") sampleRequest freeGate)).
Proof.
  split; [reflexivity|]. split; [reflexivity|]. split; [reflexivity|].
  split; [vm_compute; tauto|]. split.
  - vm_compute. tauto.
  - vm_compute. intros H.
    repeat (destruct H as [H|H]; try discriminate). exact H.
Qed.

Lemma parse_digits_uint (d : Decimal.uint) :
  ∀ acc, parse_digits (NilEmpty.string_of_uint d) acc = Some (uint_value d acc).
Proof. induction d; intros acc; simpl; try done; apply IHd. Qed.

Lemma uint_value_acc_pos (d : Decimal.uint) :
  ∀ acc : positive, uint_value d (Z.pos acc) = Z.pos (Pos.of_uint_acc d acc).
Proof.
  induction d; intros acc; simpl; try done.
  all: rewrite <- IHd; f_equal; lia.
Qed.

Lemma uint_value_of_uint (d : Decimal.uint) :
  uint_value d 0 = Z.of_N (Pos.of_uint d).
Proof.
  induction d; simpl; try done;
    match goal with
    | |- uint_value _ ?z = _ =>
        let p := eval compute in (Z.to_pos z) in
        change z with (Z.pos p); apply uint_value_acc_pos
    end.
Qed.

Lemma uint_value_to_uint (p : positive) :
  uint_value (Pos.to_uint p) 0 = Z.pos p.
Proof. by rewrite uint_value_of_uint, DecimalPos.Unsigned.of_to. Qed.

Lemma parse_digits_to_uint (p : positive) :
  parse_digits (NilEmpty.string_of_uint (Pos.to_uint p)) 0 = Some (Z.pos p).
Proof. by rewrite parse_digits_uint, uint_value_to_uint. Qed.

Lemma string_of_uint_digit (d : Decimal.uint) :
  d ≠ Decimal.Nil →
  ∃ c rest, NilEmpty.string_of_uint d = String c rest
            ∧ c ≠ "+"%char ∧ c ≠ "-"%char
            ∧ NilZero.string_of_uint d = String c rest.
Proof.
  intros Hd. destruct d; try done; eexists _, _; repeat split; discriminate.
Qed.

Lemma Atoi_digits (c : ascii) (rest : string) (n : Z) :
  c ≠ "+"%char → c ≠ "-"%char →
  parse_digits (String c rest) 0 = Some n →
  Atoi (String c rest)
  = if ((min_int64 <=? n) && (n <=? max_int64))%Z then Some n else None.
Proof.
  intros Hplus Hminus Hn. unfold Atoi.
  destruct c as [[] [] [] [] [] [] [] []]; try done;
    cbv beta iota zeta; rewrite Hn; reflexivity.
Qed.

Lemma Atoi_Itoa_gen (z : Z) :
  Atoi (Itoa z)
  = if ((min_int64 <=? z) && (z <=? max_int64))%Z then Some z else None.
Proof.
  unfold Itoa. destruct z as [|p|p]; [reflexivity| |].
  - cbn [Z.to_int NilZero.string_of_int].
    destruct (string_of_uint_digit (Pos.to_uint p) (Unsigned.to_uint_nonnil p))
      as (c & rest & He & Hplus & Hminus & ->).
    apply Atoi_digits; try done.
    rewrite <- He. apply parse_digits_to_uint.
  - cbn [Z.to_int NilZero.string_of_int].
    destruct (string_of_uint_digit (Pos.to_uint p) (Unsigned.to_uint_nonnil p))
      as (c & rest & He & Hplus & Hminus & ->).
    assert (Hp := parse_digits_to_uint p). rewrite He in Hp.
    unfold Atoi. cbv beta iota zeta. rewrite Hp. reflexivity.
Qed.


Lemma substring_all (s : string) : substring 0 (String.length s) s = s.
Proof. induction s as [|c s IH]; simpl; [done | by rewrite IH]. Qed.

Lemma substring_app_l (s t : string) :
  substring 0 (String.length s) (s +:+ t) = s.
Proof.
  induction s as [|c s IH]; simpl; [by destruct t | by rewrite IH].
Qed.

Lemma substring_app_r (s t : string) :
  substring (String.length s) (String.length t) (s +:+ t) = t.
Proof. induction s as [|c s IH]; simpl; [apply substring_all | done]. Qed.

Lemma HasSuffix_app (s t : string) : HasSuffix (s +:+ t) t = true.
Proof.
  unfold HasSuffix. rewrite string_app_length.
  replace (String.length s + String.length t - String.length t)%nat
    with (String.length s) by lia.
  rewrite substring_app_r, String.eqb_refl.
  rewrite andb_true_r. apply Nat.leb_le. lia.
Qed.

Lemma TrimSuffix_app (s t : string) : TrimSuffix (s +:+ t) t = s.
Proof.
  unfold TrimSuffix. rewrite HasSuffix_app, string_app_length.
  replace (String.length s + String.length t - String.length t)%nat
    with (String.length s) by lia.
  apply substring_app_l.
Qed.



Lemma candidate_audio_inv (f : ytdlpFormat) (d : Format) :
  candidate f = Some d → Type_ d = "audio" →
  ID d = ytFormatID f ∧ Ext d = ytExt f
  ∧ ytFormatID f ≠ "" ∧ ytVCodec f = "none" ∧ ytACodec f ≠ "none"
  ∧ (0 < Qnum (ytABR f) → Quality d = FormatFloat0 (ytABR f) +:+ "kbps")
  ∧ (Qnum (ytABR f) <= 0 → Quality d = "audio").
Proof.
  unfold candidate, classify. intros Hc Hty.
  destruct (String.eqb_spec (ytFormatID f) ""); [done|].
  destruct (String.eqb_spec (ytVCodec f) "none");
    destruct (String.eqb_spec (ytACodec f) "none"); simpl in Hc;
    repeat case_match; simplify_eq/=; try done.
  all: repeat split; try done; intros; try lia.
  all: match goal with
       | H : (0 <? _) = true |- _ => apply Z.ltb_lt in H; lia
       | H : (0 <? _) = false |- _ => apply Z.ltb_ge in H; lia
       end.
Qed.

(** X2: an audio descriptor of the normalizer comes from a raw encoding of
    the input with its identifier and container, and the bitrate the ranker
    parses from its label is the bitrate of that encoding rounded to the
    nearest integer (ties to even), or 0 when the encoding has no positive
    bitrate or the rounded one does not fit [int64]. *)
Theorem normalizer_label_parsed_bitrate (ytFormats : list ytdlpFormat)
        (d : Format) :
  d ∈ parseFormats ytFormats → Type_ d = "audio" →
  ∃ f, f ∈ ytFormats
       ∧ ID d = ytFormatID f ∧ Ext d = ytExt f
       ∧ extractBitrate (Quality d)
         = if (0 <? Qnum (ytABR f))
              && (round_half_even (ytABR f) <=? max_int64)
           then round_half_even (ytABR f)
           else 0.
Proof.
  intros Hd Hty.
  destruct (parseFormats_candidates _ _ Hd) as (f & Hf & Hc).
  exists f. split; [done|].
  destruct (candidate_audio_inv f d Hc Hty)
    as (Hid & Hext & _ & _ & _ & Hpos & Hnon).
  split; [done|]. split; [done|].
  destruct (Z.ltb_spec 0 (Qnum (ytABR f))) as [Hlt|Hge]; simpl.
  - rewrite (Hpos Hlt). unfold FormatFloat0.
    destruct (Z.ltb_spec (Qnum (ytABR f)) 0); [lia|].
    unfold extractBitrate. rewrite TrimSuffix_app, Atoi_Itoa_gen.
    pose proof (round_half_even_nonneg _ Hlt) as Hr.
    destruct (Z.leb_spec min_int64 (round_half_even (ytABR f)));
      [|unfold min_int64 in *; lia].
    simpl. by destruct (round_half_even (ytABR f) <=? max_int64).
  - rewrite (Hnon Hge). reflexivity.
Qed.

Lemma normalizer_label_parsed_bitrate_witness :
  let d := {| ID := "251"; Type_ := "audio"; Quality := "160kbps";
              Ext := "webm"; Size := 0 |} in
  d ∈ parseFormats spec_example ∧ Type_ d = "audio"
  ∧ ∃ f, f ∈ spec_example ∧ ID d = ytFormatID f ∧ Ext d = ytExt f
         ∧ extractBitrate (Quality d)
           = if (0 <? Qnum (ytABR f))
                && (round_half_even (ytABR f) <=? max_int64)
             then round_half_even (ytABR f)
             else 0.
Proof.
  intros d.
  assert (Hd : d ∈ parseFormats spec_example).
  { replace (parseFormats spec_example)
      with [ {| ID := "137"; Type_ := "video"; Quality := "1080p";
                Ext := "mp4"; Size := 0 |};
             {| ID := "140"; Type_ := "audio"; Quality := "128kbps";
                Ext := "m4a"; Size := 0 |}; d ]
      by (vm_compute; reflexivity).
    apply list_elem_of_In. simpl. tauto. }
  split; [exact Hd|]. split; [reflexivity|].
  exact (normalizer_label_parsed_bitrate spec_example d Hd eq_refl).
Defined.

Lemma string_app_nonempty (s t : string) : t ≠ "" → s +:+ t ≠ "".
Proof. intros Ht H. destruct s; [done | discriminate]. Qed.

Lemma candidate_inv (f : ytdlpFormat) (d : Format) :
  candidate f = Some d →
  ID d = ytFormatID f ∧ Ext d = ytExt f ∧ Size d = ytFilesize f
  ∧ ytFormatID f ≠ ""
  ∧ (Type_ d = "audio" ∨ Type_ d = "video")
  ∧ Quality d ≠ "".
Proof.
  unfold candidate, classify. intros Hc.
  destruct (String.eqb_spec (ytFormatID f) ""); [done|].
  repeat case_match; simplify_eq/=; repeat split; auto;
    try (apply string_app_nonempty; discriminate); try discriminate.
  match goal with
  | H : negb (String.eqb (ytResolution f) "") && _ = true |- _ =>
      apply andb_prop in H as [H _]; apply negb_true_iff in H;
      by apply String.eqb_neq in H
  end.
Qed.

(** X3: every descriptor of the normalizer has a non-empty identifier, the
    kind audio or video (never video_only), a non-empty quality label, and
    the identifier, container and size of a raw encoding of the input. *)
Theorem parseFormats_descriptors_wellformed (ytFormats : list ytdlpFormat)
        (d : Format) :
  d ∈ parseFormats ytFormats →
  ID d ≠ "" ∧ (Type_ d = "audio" ∨ Type_ d = "video") ∧ Quality d ≠ ""
  ∧ ∃ f, f ∈ ytFormats ∧ ID d = ytFormatID f ∧ Ext d = ytExt f
         ∧ Size d = ytFilesize f.
Proof.
  intros Hd. destruct (parseFormats_candidates _ _ Hd) as (f & Hf & Hc).
  destruct (candidate_inv f d Hc) as (Hid & Hext & Hsize & Hne & Hty & Hq).
  split; [by rewrite Hid|]. split; [done|]. split; [done|].
  exists f. done.
Qed.

Lemma parseFormats_descriptors_wellformed_witness :
  let d := {| ID := "140"; Type_ := "audio"; Quality := "128kbps";
              Ext := "m4a"; Size := 0 |} in
  d ∈ parseFormats spec_example
  ∧ ID d ≠ "" ∧ (Type_ d = "audio" ∨ Type_ d = "video") ∧ Quality d ≠ "".
Proof.
  intros d.
  assert (Hd : d ∈ parseFormats spec_example).
  { replace (parseFormats spec_example)
      with [ {| ID := "137"; Type_ := "video"; Quality := "1080p";
                Ext := "mp4"; Size := 0 |}; d;
             {| ID := "251"; Type_ := "audio"; Quality := "160kbps";
                Ext := "webm"; Size := 0 |} ]
      by (vm_compute; reflexivity).
    apply list_elem_of_In. simpl. tauto. }
  destruct (parseFormats_descriptors_wellformed spec_example d Hd)
    as (Hid & Hty & Hq & _).
  split; [exact Hd|]. split; [exact Hid|]. split; [exact Hty | exact Hq].
Defined.

Lemma parseStep_extends (st : gmap string bool * list Format)
      (f : ytdlpFormat) :
  st.2 `prefix_of` (parseStep st f).2.
Proof.
  unfold parseStep. destruct (classify f); try done.
  destruct (default false _); [done|]. simpl. by apply prefix_app_r.
Qed.

Lemma parseLoop_extends (l : list ytdlpFormat) :
  ∀ st, st.2 `prefix_of` (fold_left parseStep l st).2.
Proof.
  induction l as [|f l IH]; intros st; simpl; [done|].
  etrans; [apply parseStep_extends | apply IH].
Qed.

Lemma omap_length_le {A B} (g : A → option B) (l : list A) :
  (length (omap g l) ≤ length l)%nat.
Proof.
  induction l as [|x l IH]; csimpl; [done|].
  destruct (g x); csimpl; unfold omap in *; lia.
Qed.

(** X4: the normalizer only appends: the output for a sequence of raw
    encodings is a prefix of the output for any longer sequence that starts
    with it, and the output is never longer than the input. *)
Theorem parseFormats_prefix_stable (ytFormats more : list ytdlpFormat) :
  parseFormats ytFormats `prefix_of` parseFormats (ytFormats ++ more)
  ∧ (length (parseFormats ytFormats) ≤ length ytFormats)%nat.
Proof.
  split.
  - unfold parseFormats. rewrite fold_left_app. apply parseLoop_extends.
  - rewrite parseFormats_keep_first.
    etrans; [apply sublist_length, keep_first_sublist|].
    apply omap_length_le.
Qed.

Lemma candidate_none_iff (f : ytdlpFormat) :
  candidate f = None ↔
  ytFormatID f = ""
  ∨ (ytVCodec f = "none" ∧ ytACodec f = "none")
  ∨ (ytVCodec f ≠ "none" ∧ ytExt f ≠ "mp4")
  ∨ (ytVCodec f ≠ "none" ∧ ytHeight f <= 0
     ∧ (ytResolution f = "" ∨ ytResolution f = "audio only")).
Proof.
  unfold candidate, classify.
  destruct (String.eqb_spec (ytFormatID f) ""); [by split; auto|].
  destruct (String.eqb_spec (ytVCodec f) "none");
    destruct (String.eqb_spec (ytACodec f) "none"); simpl.
  - split; [auto | done].
  - split; [done | intros [?|[[_ ?]|[[? _]|[? _]]]]; done].
  - destruct (String.eqb_spec (ytExt f) "mp4"); simpl; [|by split; auto].
    destruct (Z.ltb_spec 0 (ytHeight f)); simpl.
    { split; [done | intros [?|[[? _]|[[_ ?]|(_ & ? & _)]]]; done || lia]. }
    destruct (String.eqb_spec (ytResolution f) ""); simpl.
    { split; [intros _; do 3 right; auto | done]. }
    destruct (String.eqb_spec (ytResolution f) "audio only"); simpl.
    { split; [intros _; do 3 right; auto | done]. }
    split; [done|]. intros [?|[[? _]|[[_ ?]|(_ & _ & [?|?])]]]; done.
  - destruct (String.eqb_spec (ytExt f) "mp4"); simpl; [|by split; auto].
    destruct (Z.ltb_spec 0 (ytHeight f)); simpl.
    { split; [done | intros [?|[[? _]|[[_ ?]|(_ & ? & _)]]]; done || lia]. }
    destruct (String.eqb_spec (ytResolution f) ""); simpl.
    { split; [intros _; do 3 right; auto | done]. }
    destruct (String.eqb_spec (ytResolution f) "audio only"); simpl.
    { split; [intros _; do 3 right; auto | done]. }
    split; [done|]. intros [?|[[? _]|[[_ ?]|(_ & _ & [?|?])]]]; done.
Qed.

(** X5: an iteration of the loop of the normalizer leaves the loop state
    (the map [seen] and the list [formats]) as it is exactly when the raw
    encoding is filtered out or its key is already in [seen]; it is filtered
    out when it has no identifier, or no track (both codec tags are "none"),
    or a video track in a container other than mp4, or a video track with
    neither a positive height nor a usable resolution text.  An encoding
    that is filtered out leaves the whole output as it is, wherever it
    stands in the input; any other encoding is represented: the output holds
    a descriptor of its kind and container. *)
Theorem normalizer_skips_exactly (before after : list ytdlpFormat)
        (f : ytdlpFormat) :
  (∀ st : gmap string bool * list Format,
      parseStep st f = st
      ↔ (ytFormatID f = ""
         ∨ (ytVCodec f = "none" ∧ ytACodec f = "none")
         ∨ (ytVCodec f ≠ "none" ∧ ytExt f ≠ "mp4")
         ∨ (ytVCodec f ≠ "none" ∧ ytHeight f <= 0
            ∧ (ytResolution f = "" ∨ ytResolution f = "audio only")))
        ∨ ∃ formatType quality,
            classify f = Keep formatType quality
            ∧ default false
                (st.1 !! dedupKey formatType quality (ytExt f)) = true)
  ∧ ((ytFormatID f = ""
      ∨ (ytVCodec f = "none" ∧ ytACodec f = "none")
      ∨ (ytVCodec f ≠ "none" ∧ ytExt f ≠ "mp4")
      ∨ (ytVCodec f ≠ "none" ∧ ytHeight f <= 0
         ∧ (ytResolution f = "" ∨ ytResolution f = "audio only"))) →
     parseFormats (before ++ f :: after) = parseFormats (before ++ after))
  ∧ (¬ (ytFormatID f = ""
        ∨ (ytVCodec f = "none" ∧ ytACodec f = "none")
        ∨ (ytVCodec f ≠ "none" ∧ ytExt f ≠ "mp4")
        ∨ (ytVCodec f ≠ "none" ∧ ytHeight f <= 0
           ∧ (ytResolution f = "" ∨ ytResolution f = "audio only"))) →
     ∃ d, d ∈ parseFormats (before ++ f :: after)
          ∧ Ext d = ytExt f
          ∧ Type_ d = (if String.eqb (ytVCodec f) "none"
                       then "audio" else "video")).
Proof.
  split; [|split].
  - intros st. rewrite <- candidate_none_iff. split.
    + intros Hst. unfold candidate. unfold parseStep in Hst.
      destruct (classify f) as [ty q| | | |] eqn:Hc; auto.
      right. exists ty, q. split; [done|].
      destruct (default false (st.1 !! dedupKey ty q (ytExt f))); [done|].
      exfalso. apply (f_equal snd) in Hst. simpl in Hst.
      apply (f_equal length) in Hst. rewrite length_app in Hst.
      simpl in Hst. lia.
    + intros [Hnone|(ty & q & Hc & Hseen)].
      * by apply parseStep_skip.
      * unfold parseStep. by rewrite Hc, Hseen.
  - intros Hskip. apply candidate_none_iff in Hskip.
    unfold parseFormats. rewrite !fold_left_app. simpl.
    by rewrite parseStep_skip.
  - intros Hkeep. rewrite <- candidate_none_iff in Hkeep.
    destruct (candidate f) as [c|] eqn:Hc; [|done].
    rewrite parseFormats_keep_first.
    destruct (keep_first_complete (omap candidate (before ++ f :: after))
                                  [] c) as [Hnil|(d & Hd & Htr)].
    { apply list_elem_of_omap. exists f. split; [|done].
      apply elem_of_app. right. by left. }
    { by apply elem_of_nil in Hnil. }
    exists d. split; [done|].
    unfold triple in Htr. injection Htr as Hty _ Hext.
    rewrite Hext, Hty. clear Hkeep.
    unfold candidate, classify in Hc.
    destruct (String.eqb (ytVCodec f) "none") eqn:Hv; simpl in Hc;
      repeat case_match; simplify_eq/=; done.
Qed.

Lemma normalizer_skips_exactly_witness :
  (ytVCodec raw248 ≠ "none" ∧ ytExt raw248 ≠ "mp4")
  ∧ parseFormats ([raw137] ++ raw248 :: [raw140])
    = parseFormats ([raw137] ++ [raw140])
  ∧ (∃ d, d ∈ parseFormats ([raw137] ++ raw140 :: [])
          ∧ Ext d = "m4a" ∧ Type_ d = "audio")
  ∧ parseStep (<["audio-128kbps-m4a" := true]> ∅, []) raw140
    = (<["audio-128kbps-m4a" := true]> ∅, []).
Proof.
  assert (Hskip : ytVCodec raw248 ≠ "none" ∧ ytExt raw248 ≠ "mp4")
    by (split; discriminate).
  split; [exact Hskip|]. split; [|split].
  - apply (proj1 (proj2 (normalizer_skips_exactly [raw137] [raw140] raw248))).
    right. right. left. exact Hskip.
  - apply (proj2 (proj2 (normalizer_skips_exactly [raw137] [] raw140))).
    intros [H|[[_ H]|[[H _]|[H _]]]]; try discriminate H;
      apply H; reflexivity.
  - apply (proj1 (normalizer_skips_exactly [] [] raw140)).
    right. exists "audio", "128kbps". split; reflexivity.
Defined.

(** ** More on the ranker *)

Lemma fold_pickAudio_none (l : list Format) (init : option Format) :
  (∀ f, f ∈ l → Type_ f ≠ "audio") → fold_left pickAudio l init = init.
Proof.
  revert init. induction l as [|x l IH]; intros init Hno; simpl; [done|].
  rewrite IH by (intros f Hf; apply Hno; by right).
  unfold pickAudio. destruct (String.eqb_spec (Type_ x) "audio") as [E|]; [|done].
  exfalso. apply (Hno x); [by left | done].
Qed.

Lemma fold_pickAudio_spec (l : list Format) :
  ∀ init b, fold_left pickAudio l init = Some b →
    (init = Some b
     ∧ ∀ f, f ∈ l → Type_ f = "audio" →
            extractBitrate (Quality f) <= extractBitrate (Quality b))
    ∨ (∃ i : nat, l !! i = Some b ∧ Type_ b = "audio"
         ∧ (∀ f, f ∈ l → Type_ f = "audio" →
                 extractBitrate (Quality f) <= extractBitrate (Quality b))
         ∧ (∀ (j : nat) f, (j < i)%nat → l !! j = Some f → Type_ f = "audio" →
                 extractBitrate (Quality f) < extractBitrate (Quality b))
         ∧ (∀ b0, init = Some b0 →
                  extractBitrate (Quality b0) < extractBitrate (Quality b))).
Proof.
  induction l as [|x l IH]; intros init b Hfold; simpl in Hfold.
  { left. split; [done|]. intros f Hf. by apply elem_of_nil in Hf. }
  destruct (IH _ _ Hfold) as [[Hinit Hle]|(i & Hi & Hty & Hle & Hlt & Hinit)].
  - unfold pickAudio in Hinit.
    destruct (String.eqb_spec (Type_ x) "audio") as [Hx|Hx].
    + destruct init as [b0|].
      * destruct (Z.ltb_spec (extractBitrate (Quality b0))
                             (extractBitrate (Quality x))) as [Hlt|Hge].
        -- injection Hinit as <-. right. exists 0%nat.
           split; [done|]. split; [done|]. split.
           { intros f [->|Hf]%elem_of_cons ?; [lia | by apply Hle]. }
           split; [intros j f Hj; lia|]. by intros ? [= <-].
        -- left. split; [done|]. injection Hinit as ->.
           intros f [->|Hf]%elem_of_cons ?; [lia | by apply Hle].
      * injection Hinit as <-. right. exists 0%nat.
        split; [done|]. split; [done|]. split.
        { intros f [->|Hf]%elem_of_cons ?; [lia | by apply Hle]. }
        split; [intros j f Hj; lia | done].
    + left. split; [done|].
      intros f [->|Hf]%elem_of_cons ?; [done | by apply Hle].
  - right. exists (S i). split; [done|]. split; [done|].
    unfold pickAudio in Hinit.
    destruct (String.eqb_spec (Type_ x) "audio") as [Hx|Hx].
    + destruct init as [b0|].
      * destruct (Z.ltb_spec (extractBitrate (Quality b0))
                             (extractBitrate (Quality x))) as [Hlt0|Hge0].
        -- pose proof (Hinit x eq_refl) as Hxb.
           split.
           { intros f [->|Hf]%elem_of_cons ?; [lia | by apply Hle]. }
           split.
           { intros [|j] f Hj Hf ?; simpl in Hf.
             - injection Hf as <-. done.
             - apply (Hlt j); [lia | done | done]. }
           intros ? [= <-]. lia.
        -- pose proof (Hinit b0 eq_refl) as Hb0.
           split.
           { intros f [->|Hf]%elem_of_cons ?; [lia | by apply Hle]. }
           split.
           { intros [|j] f Hj Hf ?; simpl in Hf.
             - injection Hf as <-. lia.
             - apply (Hlt j); [lia | done | done]. }
           by intros ? [= <-].
      * pose proof (Hinit x eq_refl) as Hxb.
        split.
        { intros f [->|Hf]%elem_of_cons ?; [lia | by apply Hle]. }
        split; [|done].
        intros [|j] f Hj Hf ?; simpl in Hf.
        -- injection Hf as <-. done.
        -- apply (Hlt j); [lia | done | done].
    + split.
      { intros f [->|Hf]%elem_of_cons ?; [done | by apply Hle]. }
      split; [|done].
      intros [|j] f Hj Hf ?; simpl in Hf.
      * injection Hf as <-. done.
      * apply (Hlt j); [lia | done | done].
Qed.

Lemma findBestAudio_none_no_audio (formats : list Format) :
  findBestAudio formats = None → ∀ f, f ∈ formats → Type_ f ≠ "audio".
Proof.
  unfold findBestAudio. intros Hnone f Hf Hty.
  induction formats as [|x l IH] using rev_ind.
  { by apply elem_of_nil in Hf. }
  rewrite fold_left_app in Hnone. simpl in Hnone.
  unfold pickAudio at 1 in Hnone.
  destruct (String.eqb_spec (Type_ x) "audio") as [Hx|Hx].
  - by destruct (fold_left pickAudio l None); [destruct (_ <? _)|].
  - apply elem_of_app in Hf as [Hf|Hf]; [by apply IH|].
    apply list_elem_of_singleton in Hf as ->. done.
Qed.

(** X6: the best audio of the ranker: there is none exactly when the
    formats hold no audio descriptor; otherwise it is an audio descriptor
    of the list whose parsed bitrate is the largest, and among those with
    the largest bitrate it is the first. *)
Theorem findBestAudio_is_first_maximum (formats : list Format) :
  (findBestAudio formats = None ↔ ∀ f, f ∈ formats → Type_ f ≠ "audio")
  ∧ (∀ b, findBestAudio formats = Some b →
       ∃ i : nat, formats !! i = Some b ∧ Type_ b = "audio"
         ∧ (∀ f, f ∈ formats → Type_ f = "audio" →
                 extractBitrate (Quality f) <= extractBitrate (Quality b))
         ∧ (∀ (j : nat) f, (j < i)%nat → formats !! j = Some f →
                 Type_ f = "audio" →
                 extractBitrate (Quality f) < extractBitrate (Quality b))).
Proof.
  split; [split|].
  - apply findBestAudio_none_no_audio.
  - apply fold_pickAudio_none.
  - intros b Hb. unfold findBestAudio in Hb.
    destruct (fold_pickAudio_spec _ _ _ Hb)
      as [[? _]|(i & Hi & Hty & Hle & Hlt & _)]; [done|].
    exists i. done.
Qed.

Lemma findBestAudio_is_first_maximum_witness :
  let a140 := {| ID := "140"; Type_ := "audio"; Quality := "128kbps";
                 Ext := "m4a"; Size := 0 |} in
  let a251 := {| ID := "251"; Type_ := "audio"; Quality := "160kbps";
                 Ext := "webm"; Size := 0 |} in
  findBestAudio [a140; a251; a251] = Some a251
  ∧ ∃ i : nat, [a140; a251; a251] !! i = Some a251
      ∧ ∀ (j : nat) f, (j < i)%nat → [a140; a251; a251] !! j = Some f →
          Type_ f = "audio" →
          extractBitrate (Quality f) < extractBitrate (Quality a251).
Proof.
  intros a140 a251.
  assert (Hb : findBestAudio [a140; a251; a251] = Some a251) by reflexivity.
  split; [exact Hb|].
  destruct (proj2 (findBestAudio_is_first_maximum [a140; a251; a251]) a251 Hb)
    as (i & Hi & _ & _ & Hlt).
  exists i. split; [exact Hi | exact Hlt].
Defined.

Lemma scanTier_find (res : Z) (bestAudio : option Format)
      (formats best : list Format) :
  scanTier res bestAudio formats best
  = best ++ tierOffers res bestAudio formats.
Proof.
  unfold tierOffers.
  induction formats as [|f formats IH]; simpl.
  - by rewrite app_nil_r.
  - fold (tierMatch res f). destruct (tierMatch res f).
    + destruct bestAudio; [by rewrite <- app_assoc | done].
    + exact IH.
Qed.

Lemma GetBestFormats_closed_form (formats : list Format) :
  GetBestFormats formats
  = match findBestAudio formats with
    | Some a => [bestAudioOffer a]
    | None => []
    end
    ++ tierOffers 360 (findBestAudio formats) formats
    ++ tierOffers 480 (findBestAudio formats) formats
    ++ tierOffers 720 (findBestAudio formats) formats
    ++ tierOffers 1080 (findBestAudio formats) formats.
Proof.
  unfold GetBestFormats, resolutions. simpl.
  rewrite !scanTier_find, <- !app_assoc. done.
Qed.

Lemma find_none_iff {A} (p : A → bool) (l : list A) :
  List.find p l = None ↔ ∀ x, x ∈ l → p x = false.
Proof.
  induction l as [|y l IH]; simpl.
  - split; [intros _ x Hx; by apply elem_of_nil in Hx | done].
  - destruct (p y) eqn:Hy.
    + split; [done|]. intros H. rewrite (H y) in Hy; [done | by left].
    + rewrite IH. split.
      * intros H x [->|Hx]%elem_of_cons; auto.
      * intros H x Hx. apply H. by right.
Qed.

Lemma find_some_elem {A} (p : A → bool) (l : list A) (x : A) :
  List.find p l = Some x → x ∈ l ∧ p x = true.
Proof.
  induction l as [|y l IH]; simpl; [done|].
  destruct (p y) eqn:Hy.
  - intros [= <-]. split; [by left | done].
  - intros H. destruct (IH H). split; [by right | done].
Qed.

Lemma tierOffers_nil_iff (res : Z) (bestAudio : option Format)
      (formats : list Format) :
  tierOffers res bestAudio formats = []
  ↔ ∀ f, f ∈ formats → tierMatch res f = false.
Proof.
  rewrite <- find_none_iff. unfold tierOffers.
  destruct (List.find (tierMatch res) formats); [|done].
  by destruct bestAudio.
Qed.

(** X7: the curated list is empty exactly when the formats hold no audio
    descriptor and no video descriptor whose quality label starts with
    360, 480, 720 or 1080: this is when the caller falls back to the
    uncurated list. *)
Theorem GetBestFormats_empty_iff (formats : list Format) :
  GetBestFormats formats = []
  ↔ (∀ f, f ∈ formats → Type_ f ≠ "audio")
    ∧ (∀ f res, f ∈ formats → res ∈ resolutions →
         ¬ (Type_ f = "video" ∧ HasPrefix (Quality f) (Itoa res) = true)).
Proof.
  rewrite GetBestFormats_closed_form. split.
  - intros H.
    apply app_eq_nil in H as [Ha H]. apply app_eq_nil in H as [H1 H].
    apply app_eq_nil in H as [H2 H]. apply app_eq_nil in H as [H3 H4].
    assert (Hnone : findBestAudio formats = None)
      by (by destruct (findBestAudio formats)).
    split.
    + by apply findBestAudio_none_no_audio.
    + intros f res Hf Hres [Hty Hpre].
      assert (tierMatch res f = false) as Hm.
      { unfold resolutions in Hres.
        repeat (apply elem_of_cons in Hres as [->|Hres]);
          [ exact (proj1 (tierOffers_nil_iff 360 _ formats) H1 f Hf)
          | exact (proj1 (tierOffers_nil_iff 480 _ formats) H2 f Hf)
          | exact (proj1 (tierOffers_nil_iff 720 _ formats) H3 f Hf)
          | exact (proj1 (tierOffers_nil_iff 1080 _ formats) H4 f Hf)
          | by apply elem_of_nil in Hres ]. }
      unfold tierMatch in Hm. rewrite Hty, Hpre in Hm. done.
  - intros [Hno Htier].
    assert (Hnone : findBestAudio formats = None)
      by (by apply fold_pickAudio_none).
    rewrite Hnone.
    assert (Hm : ∀ res, res ∈ resolutions →
                 tierOffers res None formats = []).
    { intros res Hres. apply tierOffers_nil_iff. intros f Hf.
      unfold tierMatch.
      destruct (String.eqb_spec (Type_ f) "video") as [Hty|]; [|done].
      destruct (HasPrefix (Quality f) (Itoa res)) eqn:Hp; [|done].
      exfalso. by apply (Htier f res). }
    rewrite !Hm; [done|..]; apply list_elem_of_In; simpl; tauto.
Qed.

Lemma tierOffers_elem (res : Z) (bestAudio : option Format)
      (formats : list Format) (d : Format) :
  d ∈ tierOffers res bestAudio formats →
  ∃ f, f ∈ formats ∧ tierMatch res f = true
       ∧ List.find (tierMatch res) formats = Some f
       ∧ (d = videoOnlyOffer res f
          ∨ ∃ a, bestAudio = Some a ∧ d = mergedOffer res f a).
Proof.
  unfold tierOffers.
  destruct (List.find (tierMatch res) formats) as [f|] eqn:Hfind.
  - destruct (find_some_elem _ _ _ Hfind) as [Hf Hm].
    intros Hd. exists f. split; [done|]. split; [done|]. split; [done|].
    destruct bestAudio as [a|].
    + apply elem_of_cons in Hd as [->|Hd]; [right; eauto|].
      apply list_elem_of_singleton in Hd as ->. by left.
    + apply list_elem_of_singleton in Hd as ->. by left.
  - intros Hd. by apply elem_of_nil in Hd.
Qed.

Lemma GetBestFormats_elem (formats : list Format) (d : Format) :
  d ∈ GetBestFormats formats →
  (∃ a, findBestAudio formats = Some a ∧ d = bestAudioOffer a)
  ∨ ∃ res f, res ∈ resolutions ∧ f ∈ formats ∧ tierMatch res f = true
      ∧ List.find (tierMatch res) formats = Some f
      ∧ (d = videoOnlyOffer res f
         ∨ ∃ a, findBestAudio formats = Some a ∧ d = mergedOffer res f a).
Proof.
  rewrite GetBestFormats_closed_form. intros Hd.
  assert (Hres : ∀ res, res ∈ resolutions →
            d ∈ tierOffers res (findBestAudio formats) formats →
            ∃ res f, res ∈ resolutions ∧ f ∈ formats ∧ tierMatch res f = true
              ∧ List.find (tierMatch res) formats = Some f
              ∧ (d = videoOnlyOffer res f
                 ∨ ∃ a, findBestAudio formats = Some a
                        ∧ d = mergedOffer res f a)).
  { intros res Hres Hin.
    destruct (tierOffers_elem _ _ _ _ Hin) as (f & ? & ? & ? & ?).
    exists res, f. done. }
  apply elem_of_app in Hd as [Hd|Hd].
  { left. destruct (findBestAudio formats) as [a|].
    - apply list_elem_of_singleton in Hd as ->. eauto.
    - by apply elem_of_nil in Hd. }
  right.
  repeat (apply elem_of_app in Hd as [Hd|Hd]);
    [apply (Hres 360) | apply (Hres 480) | apply (Hres 720)
     | apply (Hres 1080)]; try done; apply list_elem_of_In; simpl; tauto.
Qed.

(** X8: where the offers come from.  The audio offer carries the
    identifier, container and size of the best audio; a video-only offer
    carries those of a video descriptor of the input whose label starts
    with the number of one of the four tiers and which is the first such
    descriptor; a merged offer joins the identifier of such a video and the
    one of the best audio with "+", has the container mp4 and the sum of
    the two sizes in [int64] arithmetic. *)
Theorem GetBestFormats_offer_origin (formats : list Format) (d : Format) :
  d ∈ GetBestFormats formats →
  (Type_ d = "audio"
   ∧ ∃ a, findBestAudio formats = Some a
          ∧ ID d = ID a ∧ Ext d = Ext a ∧ Size d = Size a)
  ∨ (Type_ d = "video_only"
     ∧ ∃ res f, res ∈ resolutions ∧ f ∈ formats ∧ Type_ f = "video"
         ∧ HasPrefix (Quality f) (Itoa res) = true
         ∧ List.find (tierMatch res) formats = Some f
         ∧ ID d = ID f ∧ Ext d = Ext f ∧ Size d = Size f)
  ∨ (Type_ d = "video"
     ∧ ∃ res f a, res ∈ resolutions ∧ f ∈ formats ∧ Type_ f = "video"
         ∧ HasPrefix (Quality f) (Itoa res) = true
         ∧ List.find (tierMatch res) formats = Some f
         ∧ findBestAudio formats = Some a
         ∧ ID d = ID f +:+ "+" +:+ ID a ∧ Ext d = "mp4"
         ∧ Size d = wrap64 (Size f + Size a)).
Proof.
  intros Hd.
  destruct (GetBestFormats_elem _ _ Hd)
    as [(a & Ha & ->)|(res & f & Hres & Hf & Hm & Hfind & Hshape)].
  - left. split; [done|]. exists a. done.
  - unfold tierMatch in Hm. apply andb_prop in Hm as [Hty Hpre].
    apply String.eqb_eq in Hty.
    destruct Hshape as [->|(a & Ha & ->)].
    + right. left. split; [done|]. exists res, f. done.
    + right. right. split; [done|]. exists res, f, a. done.
Qed.

Lemma GetBestFormats_offer_origin_witness :
  let v := {| ID := "137"; Type_ := "video"; Quality := "1080p";
              Ext := "mp4"; Size := 5 |} in
  let a := {| ID := "251"; Type_ := "audio"; Quality := "160kbps";
              Ext := "webm"; Size := 7 |} in
  let d := {| ID := "137+251"; Type_ := "video";
              Quality := "1080p Full HD (видео + аудио)"; Ext := "mp4";
              Size := 12 |} in
  d ∈ GetBestFormats [v; a]
  ∧ ((Type_ d = "audio"
      ∧ ∃ a', findBestAudio [v; a] = Some a'
              ∧ ID d = ID a' ∧ Ext d = Ext a' ∧ Size d = Size a')
     ∨ (Type_ d = "video_only"
        ∧ ∃ res f, res ∈ resolutions ∧ f ∈ [v; a] ∧ Type_ f = "video"
            ∧ HasPrefix (Quality f) (Itoa res) = true
            ∧ List.find (tierMatch res) [v; a] = Some f
            ∧ ID d = ID f ∧ Ext d = Ext f ∧ Size d = Size f)
     ∨ (Type_ d = "video"
        ∧ ∃ res f a', res ∈ resolutions ∧ f ∈ [v; a] ∧ Type_ f = "video"
            ∧ HasPrefix (Quality f) (Itoa res) = true
            ∧ List.find (tierMatch res) [v; a] = Some f
            ∧ findBestAudio [v; a] = Some a'
            ∧ ID d = ID f +:+ "+" +:+ ID a' ∧ Ext d = "mp4"
            ∧ Size d = wrap64 (Size f + Size a'))).
Proof.
  intros v a d.
  assert (Hd : d ∈ GetBestFormats [v; a]).
  { replace (GetBestFormats [v; a])
      with [bestAudioOffer a; d; videoOnlyOffer 1080 v]
      by (vm_compute; reflexivity).
    apply list_elem_of_In. simpl. tauto. }
  split; [exact Hd|]. exact (GetBestFormats_offer_origin [v; a] d Hd).
Defined.

Lemma ContainsByte_app (s t : string) (b : ascii) :
  ContainsByte (s +:+ t) b = ContainsByte s b || ContainsByte t b.
Proof.
  induction s as [|c s IH]; simpl; [done|]. by rewrite IH, orb_assoc.
Qed.

(** X9: the curated list and the orchestrator fit: for every offer of kind
    video (a merged offer) the identifier holds a "+", so [DownloadToFile]
    passes yt-dlp the options that merge into mp4 and re-encode the audio,
    and the URL is the last argument. *)
Theorem merged_offer_triggers_merge (formats : list Format) (d : Format)
        (w : Orchestrator.world) (url tempDir : string) :
  d ∈ GetBestFormats formats → Type_ d = "video" →
  ContainsByte (ID d) "+" = true
  ∧ Orchestrator.downloadArgs w url (ID d) tempDir
    = [ "-f"; ID d; "-o";
        Orchestrator.Join w tempDir
          (Itoa (Orchestrator.UnixNano w) +:+ "_%(title)s.%(ext)s");
        "--no-warnings"; "--no-playlist"; "--no-mtime";
        "--merge-output-format"; "mp4"; "--postprocessor-args";
        "ffmpeg:-c:v copy -c:a aac -strict experimental"; url ].
Proof.
  intros Hd Hty.
  assert (Hplus : ContainsByte (ID d) "+" = true).
  { destruct (GetBestFormats_elem _ _ Hd)
      as [(a & _ & ->)|(res & f & _ & _ & _ & _ & [->|(a & _ & ->)])];
      try discriminate.
    simpl. rewrite ContainsByte_app. simpl. apply orb_true_r. }
  split; [done|]. unfold Orchestrator.downloadArgs. by rewrite Hplus.
Qed.

Lemma merged_offer_triggers_merge_witness :
  let v := {| ID := "137"; Type_ := "video"; Quality := "1080p";
              Ext := "mp4"; Size := 5 |} in
  let a := {| ID := "251"; Type_ := "audio"; Quality := "160kbps";
              Ext := "webm"; Size := 7 |} in
  let d := {| ID := "137+251"; Type_ := "video";
              Quality := "1080p Full HD (видео + аудио)"; Ext := "mp4";
              Size := 12 |} in
  d ∈ GetBestFormats [v; a] ∧ Type_ d = "video"
  ∧ ContainsByte (ID d) "+" = true.
Proof.
  intros v a d.
  assert (Hd : d ∈ GetBestFormats [v; a]).
  { replace (GetBestFormats [v; a])
      with [bestAudioOffer a; d; videoOnlyOffer 1080 v]
      by (vm_compute; reflexivity).
    apply list_elem_of_In. simpl. tauto. }
  split; [exact Hd|]. split; [reflexivity|].
  exact (proj1 (merged_offer_triggers_merge
                  [v; a] d (sampleWorld []) "https://youtu.be/abc"
                  "/tmp/viddown" Hd eq_refl)).
Defined.

(** X10: the normalizer and the ranker fit: every offer with a video track
    (merged or video-only) that the ranker makes from the output of the
    normalizer has the container mp4. *)
Theorem curated_video_offers_are_mp4 (ytFormats : list ytdlpFormat)
        (d : Format) :
  d ∈ GetBestFormats (parseFormats ytFormats) →
  Type_ d = "video" ∨ Type_ d = "video_only" → Ext d = "mp4".
Proof.
  intros Hd Hty.
  destruct (GetBestFormats_elem _ _ Hd)
    as [(a & _ & ->)|(res & f & _ & Hf & Hm & _ & [->|(a & _ & ->)])].
  - by destruct Hty.
  - simpl. unfold tierMatch in Hm. apply andb_prop in Hm as [Hv _].
    apply String.eqb_eq in Hv.
    destruct (parseFormats_candidates _ _ Hf) as (r & _ & Hc).
    destruct (candidate_normal _ _ Hc) as [[Ha _]|[_ He]]; [|done].
    rewrite Ha in Hv. discriminate.
  - done.
Qed.

Lemma curated_video_offers_are_mp4_witness :
  let d := {| ID := "137"; Type_ := "video_only";
              Quality := "1080p Full HD (только видео)"; Ext := "mp4";
              Size := 0 |} in
  d ∈ GetBestFormats (parseFormats spec_example)
  ∧ (Type_ d = "video" ∨ Type_ d = "video_only") ∧ Ext d = "mp4".
Proof.
  intros d.
  assert (Hd : d ∈ GetBestFormats (parseFormats spec_example)).
  { replace (GetBestFormats (parseFormats spec_example))
      with [ bestAudioOffer {| ID := "251"; Type_ := "audio";
                               Quality := "160kbps"; Ext := "webm";
                               Size := 0 |};
             mergedOffer 1080
               {| ID := "137"; Type_ := "video"; Quality := "1080p";
                  Ext := "mp4"; Size := 0 |}
               {| ID := "251"; Type_ := "audio"; Quality := "160kbps";
                  Ext := "webm"; Size := 0 |};
             d ]
      by (vm_compute; reflexivity).
    apply list_elem_of_In. simpl. tauto. }
  split; [exact Hd|]. split; [right; reflexivity|].
  exact (curated_video_offers_are_mp4 spec_example d Hd (or_intror eq_refl)).
Defined.

Lemma HasPrefix_first (q : string) (c : ascii) (rest : string) :
  HasPrefix q (String c rest) = true → ∃ q', q = String c q'.
Proof.
  destruct q as [|x q]; simpl; [done|].
  intros [Hc _]%andb_prop. apply Ascii.eqb_eq in Hc as ->. eauto.
Qed.

Lemma tierMatch_exclusive (f : Format) (res res' : Z) :
  res ∈ resolutions → res' ∈ resolutions →
  tierMatch res f = true → tierMatch res' f = true → res' = res.
Proof.
  unfold resolutions, tierMatch. intros Hres Hres' [_ H]%andb_prop [_ H']%andb_prop.
  repeat (apply elem_of_cons in Hres as [->|Hres]);
    try (by apply elem_of_nil in Hres);
    repeat (apply elem_of_cons in Hres' as [->|Hres']);
    try (by apply elem_of_nil in Hres'); try done;
    apply HasPrefix_first in H as [q1 Hq1];
    apply HasPrefix_first in H' as [q2 Hq2];
    rewrite Hq1 in Hq2; discriminate.
Qed.

(** X11: no tier is lost and no video serves two tiers: for each of the
    tiers 360, 480, 720 and 1080 the first video descriptor that matches it
    gets its video-only offer and, when there is a best audio, its merged
    offer; a descriptor matches at most one of the four tiers. *)
Theorem tiers_complete_and_exclusive (formats : list Format) (res : Z)
        (f : Format) :
  res ∈ resolutions → List.find (tierMatch res) formats = Some f →
  videoOnlyOffer res f ∈ GetBestFormats formats
  ∧ (∀ a, findBestAudio formats = Some a →
          mergedOffer res f a ∈ GetBestFormats formats)
  ∧ (∀ res', res' ∈ resolutions → tierMatch res' f = true → res' = res).
Proof.
  intros Hres Hfind.
  assert (Hin : ∀ d, d ∈ tierOffers res (findBestAudio formats) formats →
                     d ∈ GetBestFormats formats).
  { intros d Hd. rewrite GetBestFormats_closed_form.
    unfold resolutions in Hres.
    repeat (apply elem_of_cons in Hres as [->|Hres]);
      try (by apply elem_of_nil in Hres);
      rewrite !elem_of_app; tauto. }
  split; [|split].
  - apply Hin. unfold tierOffers. rewrite Hfind.
    destruct (findBestAudio formats); apply list_elem_of_In; simpl; tauto.
  - intros a Ha. apply Hin. unfold tierOffers. rewrite Hfind, Ha.
    by left.
  - intros res' Hres' Hm.
    destruct (find_some_elem _ _ _ Hfind) as [_ Hm0].
    by apply (tierMatch_exclusive f res res').
Qed.

Lemma tiers_complete_and_exclusive_witness :
  let v := {| ID := "136"; Type_ := "video"; Quality := "720p";
              Ext := "mp4"; Size := 5 |} in
  720 ∈ resolutions ∧ List.find (tierMatch 720) [v] = Some v
  ∧ videoOnlyOffer 720 v ∈ GetBestFormats [v].
Proof.
  intros v.
  assert (Hres : 720 ∈ resolutions)
    by (apply list_elem_of_In; simpl; tauto).
  split; [exact Hres|]. split; [reflexivity|].
  exact (proj1 (tiers_complete_and_exclusive [v] 720 v Hres eq_refl)).
Defined.

(** ** More on the download orchestrator *)



Lemma ContainsByte_uint_underscore (u : Decimal.uint) :
  ContainsByte (NilEmpty.string_of_uint u) "_" = false.
Proof. induction u; simpl; done. Qed.

Lemma ContainsByte_uint0_underscore (u : Decimal.uint) :
  ContainsByte (NilZero.string_of_uint u) "_" = false.
Proof.
  destruct u; try done; exact (ContainsByte_uint_underscore _).
Qed.

Lemma ContainsByte_Itoa_underscore (z : Z) :
  ContainsByte (Itoa z) "_" = false.
Proof.
  unfold Itoa. destruct z as [|p|p]; [done| |];
    cbn [Z.to_int NilZero.string_of_int].
  - apply ContainsByte_uint0_underscore.
  - simpl. apply ContainsByte_uint0_underscore.
Qed.

Lemma SplitN2_at_first (s t : string) (sep : ascii) :
  ContainsByte s sep = false →
  SplitN2 (s +:+ String sep t) sep = [s; t].
Proof.
  induction s as [|c s IH]; simpl.
  - by rewrite Ascii.eqb_refl.
  - intros [Hc Hs]%orb_false_elim. rewrite Hc, (IH Hs). done.
Qed.

Lemma SplitN2_no_sep (s : string) (sep : ascii) :
  ContainsByte s sep = false → SplitN2 s sep = [s].
Proof.
  induction s as [|c s IH]; simpl; [done|].
  intros [Hc Hs]%orb_false_elim. rewrite Hc, (IH Hs). done.
Qed.

(** X13: the display name undoes the output template: when the base name
    of the file found is the timestamp of the job, an underscore and a
    title, the file name returned is that title, underscores and all; a
    base name without underscore is returned whole. *)
Theorem DownloadToFile_display_name (w : Orchestrator.world)
        (ytdlpPath url formatID tempDir stdout first : string)
        (others : list string) (size : Z) :
  Orchestrator.ValidateURL w url = None →
  Orchestrator.Output w ytdlpPath
    (Orchestrator.downloadArgs w url formatID tempDir)
  = Orchestrator.CmdOk stdout →
  Orchestrator.Glob w (Orchestrator.outputPattern w tempDir)
  = Some (first :: others) →
  Orchestrator.Stat w first = inl size → size ≠ 0 →
  (∀ title,
      Orchestrator.Base w first
      = Itoa (Orchestrator.UnixNano w) +:+ "_" +:+ title →
      Orchestrator.filename
        (Orchestrator.DownloadToFile w ytdlpPath url formatID tempDir)
      = title)
  ∧ (ContainsByte (Orchestrator.Base w first) "_" = false →
     Orchestrator.filename
       (Orchestrator.DownloadToFile w ytdlpPath url formatID tempDir)
     = Orchestrator.Base w first).
Proof.
  intros Hvalid Hcmd Hglob Hstat Hsize.
  unfold Orchestrator.DownloadToFile.
  rewrite Hvalid, Hcmd, Hglob, Hstat.
  apply Z.eqb_neq in Hsize. rewrite Hsize. simpl. split.
  - intros title ->.
    change (Itoa (Orchestrator.UnixNano w) +:+ "_" +:+ title)
      with (Itoa (Orchestrator.UnixNano w) +:+ String "_" title).
    rewrite SplitN2_at_first by apply ContainsByte_Itoa_underscore. done.
  - intros Hno. rewrite SplitN2_no_sep by done. done.
Qed.

Lemma DownloadToFile_display_name_witness :
  let w := sampleWorld ["/tmp/viddown/1700000000000000000_my_clip.mp4"] in
  Orchestrator.Base w "/tmp/viddown/1700000000000000000_my_clip.mp4"
  = Itoa (Orchestrator.UnixNano w) +:+ "_" +:+ "my_clip.mp4"
  ∧ Orchestrator.filename
      (Orchestrator.DownloadToFile w "yt-dlp" "https://youtu.be/abc" "best"
                                   "/tmp/viddown")
    = "my_clip.mp4".
Proof.
  intros w.
  assert (Hbase : Orchestrator.Base w
                    "/tmp/viddown/1700000000000000000_my_clip.mp4"
                  = Itoa (Orchestrator.UnixNano w) +:+ "_" +:+ "my_clip.mp4")
    by reflexivity.
  split; [exact Hbase|].
  refine (proj1 (DownloadToFile_display_name
                   w "yt-dlp" "https://youtu.be/abc" "best" "/tmp/viddown" ""
                   "/tmp/viddown/1700000000000000000_my_clip.mp4" [] 1024
                   eq_refl eq_refl eq_refl eq_refl _)
                "my_clip.mp4" Hbase).
  discriminate.
Defined.

(** ** More on the download handler *)

(** The exit paths of [ServeHTTP] with the equation of every test kept. *)
Ltac handler_paths_eqn e r s :=
  unfold ServeHTTP, call, ServeHTTP_body;
  unfold when, emit, defer, return_, tryAcquire, TryAcquire,
         mbind, M_bind, mret, M_ret;
  destruct (String.eqb (Method r) "GET") eqn:Hmethod; simpl;
  [ destruct (String.eqb (Get (Query r) "url") "") eqn:Hurl; simpl;
    [ | destruct (QueryUnescape e (Get (Query r) "url")) as [decodedURL|]
          eqn:Hunescape; simpl;
        [ destruct (held s <? capacity s)%nat eqn:Hgate; simpl;
          [ destruct (os_MkdirAll e tempDir) eqn:Hmkdir; simpl;
            [ destruct (DownloadToFile e decodedURL
                          (if String.eqb (Get (Query r) "format_id") ""
                           then "best" else Get (Query r) "format_id")
                          tempDir
                          (String.eqb (Get (Query r) "type") "audio"))
                as [[tempFile filename] [msg|]] eqn:Hdl; simpl;
              [ | destruct (os_Open e tempFile) eqn:Hopen; simpl;
                  [ destruct (file_Stat e tempFile) as [size|] eqn:Hstat;
                    simpl;
                    [ destruct (String.eqb (filepath_Ext filename) "")
                        eqn:Hext;
                      simpl;
                      destruct (io_Copy e tempFile) as [written []] eqn:Hcopy;
                      simpl
                    | ]
                  | ] ]
            | ]
          | ]
        | ] ]
  | ].

(** X14: input errors cost no permit: for a request whose method is not
    GET, whose url parameter is missing or empty, or whose url cannot be
    unescaped, the handler answers with one error (405 for the method, 400
    otherwise) and does nothing to the gate: no acquisition is tried, no
    download is started and the gate is unchanged. *)
Theorem ServeHTTP_input_errors_skip_gate (e : env) (r : Request)
        (s : Semaphore) :
  Method r ≠ "GET" ∨ Get (Query r) "url" = ""
  ∨ QueryUnescape e (Get (Query r) "url") = None →
  sem (ServeHTTP e r s) = s
  ∧ count isGate (trace (ServeHTTP e r s)) = 0%nat
  ∧ count isDownload (trace (ServeHTTP e r s)) = 0%nat
  ∧ count isHttpError (trace (ServeHTTP e r s)) = 1%nat
  ∧ ∃ body code,
      last (trace (ServeHTTP e r s)) = Some (HttpError body code)
      ∧ (code = 405 ∨ code = 400)
      ∧ (code = 405 ↔ Method r ≠ "GET").
Proof.
  intros Hbad. handler_paths_eqn e r s.
  all: try (exfalso; apply String.eqb_eq in Hmethod;
            apply String.eqb_neq in Hurl;
            destruct Hbad as [?|[?|?]]; congruence).
  all: repeat split; try reflexivity.
  all: eexists _, _; (split; [reflexivity|]).
  - split; [by right|]. apply String.eqb_eq in Hmethod. split; [done|].
    intros ?. done.
  - split; [by right|]. apply String.eqb_eq in Hmethod. split; [done|].
    intros ?. done.
  - split; [by left|]. apply String.eqb_neq in Hmethod. done.
Qed.

Lemma ServeHTTP_input_errors_skip_gate_witness :
  let r := {| Method := "POST"; Query := ∅ |} in
  Method r ≠ "GET"
  ∧ sem (ServeHTTP (sampleEnv "clip.mp4") r fullGate) = fullGate
  ∧ count isGate (trace (ServeHTTP (sampleEnv "clip.mp4") r fullGate)) = 0%nat.
Proof.
  intros r.
  assert (Hm : Method r ≠ "GET") by discriminate.
  split; [exact Hm|].
  destruct (ServeHTTP_input_errors_skip_gate (sampleEnv "clip.mp4") r fullGate
              (or_introl Hm)) as (Hsem & Hgate & _).
  split; [exact Hsem | exact Hgate].
Defined.

(** X15: one answer for each request: in every run the handler either
    calls [http.Error] once and sets no header and copies nothing, or it
    sets its five headers and copies the file once and calls [http.Error]
    not at all. *)
Theorem ServeHTTP_one_response (e : env) (r : Request) (s : Semaphore) :
  (count isHttpError (trace (ServeHTTP e r s))
   + count isCopy (trace (ServeHTTP e r s)) = 1)%nat
  ∧ count isHeader (trace (ServeHTTP e r s))
    = (5 * count isCopy (trace (ServeHTTP e r s)))%nat.
Proof. handler_paths e r s; split; reflexivity. Qed.

(** X16: the clean-up runs in the reverse order of the set-up: when the
    downloaded file was opened, the handler ends with closing it, removing
    it and releasing the permit, in this order; when opening failed, no
    file is closed and the handler ends with the removal and the
    release. *)
Theorem ServeHTTP_cleanup_order (e : env) (r : Request) (s : Semaphore)
        (path : string) :
  In (OsOpen path) (trace (ServeHTTP e r s)) →
  (os_Open e path = true →
   [FileClose path; OsRemove path; SemRelease]
     `suffix_of` trace (ServeHTTP e r s)
   ∧ count isClose (trace (ServeHTTP e r s)) = 1%nat)
  ∧ (os_Open e path = false →
     [OsRemove path; SemRelease] `suffix_of` trace (ServeHTTP e r s)
     ∧ count isClose (trace (ServeHTTP e r s)) = 0%nat).
Proof.
  handler_paths_eqn e r s; intros Hin; simpl in Hin;
    repeat (destruct Hin as [Hin|Hin]; try discriminate);
    try contradiction;
    injection Hin as <-; rewrite Hopen;
    (split; [intros ?|intros ?]); try discriminate;
    (split; [solve_suffix | reflexivity]).
Qed.

Lemma ServeHTTP_cleanup_order_witness :
  In (OsOpen "/tmp/viddown/1700000000000000000_clip.mp4")
     (trace (ServeHTTP (sampleEnv "clip.mp4") sampleRequest freeGate))
  ∧ os_Open (sampleEnv "clip.mp4")
            "/tmp/viddown/1700000000000000000_clip.mp4" = true
  ∧ count isClose
      (trace (ServeHTTP (sampleEnv "clip.mp4") sampleRequest freeGate))
    = 1%nat.
Proof.
  assert (Hin : In (OsOpen "/tmp/viddown/1700000000000000000_clip.mp4")
                   (trace (ServeHTTP (sampleEnv "clip.mp4") sampleRequest
                                     freeGate)))
    by (vm_compute; tauto).
  split; [exact Hin|]. split; [reflexivity|].
  exact (proj2 (proj1 (ServeHTTP_cleanup_order
                         (sampleEnv "clip.mp4") sampleRequest freeGate _ Hin)
                      eq_refl)).
Defined.

(** X17: what the handler asks of the orchestrator: [DownloadToFile] is
    called at most once, only for a GET request, with the unescaped url
    parameter, with the format identifier of the request or "best" when it
    is missing or empty, with the directory /tmp/viddown, and with the
    audio flag set exactly when the type parameter is "audio". *)
Theorem ServeHTTP_download_arguments (e : env) (r : Request) (s : Semaphore) :
  (count isDownload (trace (ServeHTTP e r s)) ≤ 1)%nat
  ∧ ∀ u f t a,
      In (CallDownloadToFile u f t a) (trace (ServeHTTP e r s)) →
      Method r = "GET"
      ∧ QueryUnescape e (Get (Query r) "url") = Some u
      ∧ f = (if String.eqb (Get (Query r) "format_id") ""
             then "best" else Get (Query r) "format_id")
      ∧ t = "/tmp/viddown"
      ∧ a = String.eqb (Get (Query r) "type") "audio".
Proof.
  split.
  - handler_paths e r s; unfold count; simpl; lia.
  - intros u f t a. handler_paths_eqn e r s; intros Hin; simpl in Hin;
      repeat (destruct Hin as [Hin|Hin]; try discriminate);
      try contradiction;
      injection Hin as <- <- <- <-; apply String.eqb_eq in Hmethod; done.
Qed.

Lemma ServeHTTP_download_arguments_witness :
  let r := {| Method := "GET";
              Query := {[ "url" := ["https://youtu.be/abc"];
                          "type" := ["audio"] ]} |} in
  In (CallDownloadToFile "https://youtu.be/abc" "best" "/tmp/viddown" true)
     (trace (ServeHTTP (sampleEnv "clip.m4a") r freeGate))
  ∧ "best" = (if String.eqb (Get (Query r) "format_id") ""
              then "best" else Get (Query r) "format_id").
Proof.
  intros r.
  assert (Hin : In (CallDownloadToFile "https://youtu.be/abc" "best"
                                       "/tmp/viddown" true)
                   (trace (ServeHTTP (sampleEnv "clip.m4a") r freeGate)))
    by (vm_compute; tauto).
  split; [exact Hin|].
  destruct (proj2 (ServeHTTP_download_arguments (sampleEnv "clip.m4a") r
                                                freeGate) _ _ _ _ Hin)
    as (_ & _ & Hf & _).
  exact Hf.
Defined.

Lemma sanitizeByte_clean (c : ascii) : forbiddenByte (sanitizeByte c) = false.
Proof.
  unfold sanitizeByte.
  repeat (match goal with
          | |- context [Ascii.eqb c ?x] => destruct (Ascii.eqb_spec c x)
          end; [reflexivity|]).
  unfold forbiddenByte.
  repeat match goal with
         | H : c ≠ _ |- _ => apply Ascii.eqb_neq in H; rewrite H; clear H
         end.
  reflexivity.
Qed.

Lemma sanitizeByte_id (c : ascii) :
  forbiddenByte c = false → sanitizeByte c = c.
Proof.
  unfold forbiddenByte, sanitizeByte. intros H.
  repeat (apply orb_false_elim in H as [H ?]).
  repeat match goal with H : Ascii.eqb _ _ = false |- _ => rewrite H; clear H end.
  reflexivity.
Qed.

(** X18: [sanitizeFilename] works byte by byte: the result has the length
    of the name, none of its bytes is one of the nine replaced ones (double
    quote, backslash, slash, colon, star, question mark, less, greater,
    bar), every other byte of the name stays where it is, and sanitizing
    twice changes nothing more. *)
Theorem sanitizeFilename_clean (name : string) :
  String.length (sanitizeFilename name) = String.length name
  ∧ (∀ i c, String.get i (sanitizeFilename name) = Some c →
            forbiddenByte c = false)
  ∧ (∀ i c, String.get i name = Some c → forbiddenByte c = false →
            String.get i (sanitizeFilename name) = Some c)
  ∧ sanitizeFilename (sanitizeFilename name) = sanitizeFilename name.
Proof.
  induction name as [|x name (IHlen & IHclean & IHkeep & IHidem)]; simpl.
  { repeat split; intros; discriminate. }
  split; [by rewrite IHlen|]. split; [|split].
  - intros [|i] c; simpl.
    + intros [= <-]. apply sanitizeByte_clean.
    + apply IHclean.
  - intros [|i] c; simpl.
    + intros [= <-] Hc. by rewrite sanitizeByte_id.
    + apply IHkeep.
  - rewrite IHidem. f_equal. apply sanitizeByte_id, sanitizeByte_clean.
Qed.

Lemma scanExt_app_mp4 (name : string) :
  scanExt (name +:+ ".mp4") = Dot ".mp4".
Proof.
  induction name as [|c name IH]; [reflexivity|].
  change (String c name +:+ ".mp4") with (String c (name +:+ ".mp4")).
  simpl. by rewrite IH.
Qed.

Lemma scanExt_dot (path ext : string) :
  scanExt path = Dot ext →
  ∃ stem rest, path = stem +:+ ext ∧ ext = String "." rest
               ∧ ContainsByte rest "." = false
               ∧ ContainsByte rest "/" = false.
Proof.
  revert ext. induction path as [|c path IH]; intros ext; simpl; [done|].
  destruct (scanExt path) as [e| |] eqn:Hs.
  - intros [= <-]. destruct (IH e eq_refl) as (stem & rest & -> & -> & ? & ?).
    exists (String c stem), rest. done.
  - done.
  - destruct (Ascii.eqb_spec c "/"); [done|].
    destruct (Ascii.eqb_spec c "."); [|done].
    intros [= <-]. subst c. exists "", path. split; [done|]. split; [done|].
    clear IH. revert Hs. induction path as [|x path IHp]; simpl; [done|].
    destruct (scanExt path); try done.
    destruct (Ascii.eqb_spec x "/"); [done|].
    destruct (Ascii.eqb_spec x "."); [done|].
    intros _. destruct (IHp eq_refl) as [-> ->]. done.
Qed.

(** X19: [filepath.Ext] as the handler uses it: the extension is a suffix
    of the path, and it is empty or a dot followed by bytes that are neither
    a dot nor a slash; a name to which ".mp4" is appended has the extension
    ".mp4", so the name the handler puts in its headers always has one. *)
Theorem filepath_Ext_shape (path : string) :
  (∃ stem, path = stem +:+ filepath_Ext path)
  ∧ (filepath_Ext path = ""
     ∨ ∃ rest, filepath_Ext path = String "." rest
               ∧ ContainsByte rest "." = false
               ∧ ContainsByte rest "/" = false)
  ∧ filepath_Ext (path +:+ ".mp4") = ".mp4".
Proof.
  unfold filepath_Ext. rewrite scanExt_app_mp4.
  destruct (scanExt path) as [ext| |] eqn:Hs.
  - destruct (scanExt_dot _ _ Hs) as (stem & rest & Hp & He & Hd & Hsl).
    split; [by exists stem|]. split; [|done]. right. by exists rest.
  - split; [|by split; [left|]]. exists path.
    clear. induction path; simpl; [done | by f_equal].
  - split; [|by split; [left|]]. exists path.
    clear. induction path; simpl; [done | by f_equal].
Qed.

(** ** Configuration *)

Import Config.

Lemma Itoa_nonempty (z : Z) : Itoa z ≠ "".
Proof.
  unfold Itoa. destruct z as [|p|p]; [done| |done].
  cbn [Z.to_int NilZero.string_of_int].
  destruct (string_of_uint_digit (Pos.to_uint p) (Unsigned.to_uint_nonnil p))
    as (c & rest & _ & _ & _ & ->). done.
Qed.

(** X20: a variable that is not set and a variable set to the empty string
    are the same to the configuration: each getter returns its default, and
    with none of the five variables set to a non-empty text [Load] returns
    port 8080, no authentication, 3 concurrent downloads, 10 requests per
    minute and /usr/local/bin/yt-dlp. *)
Theorem Load_defaults (environ : gmap string string) :
  (∀ key ds db di,
      environ !! key = None ∨ environ !! key = Some "" →
      getEnv environ key ds = ds ∧ getEnvBool environ key db = db
      ∧ getEnvInt environ key di = di)
  ∧ ((∀ key, key ∈ ["PORT"; "AUTH_REQUIRED"; "MAX_CONCURRENT";
                     "RATE_LIMIT_RPM"; "YTDLP_PATH"] →
             environ !! key = None ∨ environ !! key = Some "") →
     Load environ
     = {| Port := "8080"; AuthRequired := false; MaxConcurrent := 3;
          RateLimitRPM := 10; YtDlpPath := "/usr/local/bin/yt-dlp" |}).
Proof.
  assert (Hget : ∀ key, environ !! key = None ∨ environ !! key = Some "" →
                        Getenv environ key = "").
  { intros key [H|H]; unfold Getenv; by rewrite H. }
  assert (Hall : ∀ key ds db di,
            environ !! key = None ∨ environ !! key = Some "" →
            getEnv environ key ds = ds ∧ getEnvBool environ key db = db
            ∧ getEnvInt environ key di = di).
  { intros key ds db di H. unfold getEnv, getEnvBool, getEnvInt.
    by rewrite (Hget key H). }
  split; [exact Hall|]. intros Hunset. unfold Load.
  destruct (Hall "PORT" "8080" false 0) as (-> & _ & _).
  { apply Hunset, list_elem_of_In. simpl. tauto. }
  destruct (Hall "AUTH_REQUIRED" "" false 0) as (_ & -> & _).
  { apply Hunset, list_elem_of_In. simpl. tauto. }
  destruct (Hall "MAX_CONCURRENT" "" false 3) as (_ & _ & ->).
  { apply Hunset, list_elem_of_In. simpl. tauto. }
  destruct (Hall "RATE_LIMIT_RPM" "" false 10) as (_ & _ & ->).
  { apply Hunset, list_elem_of_In. simpl. tauto. }
  destruct (Hall "YTDLP_PATH" "/usr/local/bin/yt-dlp" false 0) as (-> & _ & _).
  { apply Hunset, list_elem_of_In. simpl. tauto. }
  done.
Qed.

Lemma Load_defaults_witness :
  (∅ : gmap string string) !! "PORT" = None
  ∧ getEnv ∅ "PORT" "8080" = "8080"
  ∧ Load (<["PORT" := ""]> ∅)
    = {| Port := "8080"; AuthRequired := false; MaxConcurrent := 3;
         RateLimitRPM := 10; YtDlpPath := "/usr/local/bin/yt-dlp" |}.
Proof.
  split; [reflexivity|]. split.
  - exact (proj1 (proj1 (Load_defaults ∅) "PORT" "8080" false 0
                        (or_introl eq_refl))).
  - apply (proj2 (Load_defaults (<["PORT" := ""]> ∅))).
    intros key Hkey.
    destruct (decide (key = "PORT")) as [->|Hne].
    + right. apply lookup_insert_eq.
    + left. rewrite lookup_insert_ne by done. apply lookup_empty.
Defined.

(** X21: the numeric settings are not validated: whatever [int64] number
    the variable holds in decimal, be it zero or negative, is the value of
    the setting; a text that is no number leaves the default. *)
Theorem getEnvInt_accepts_any_int64 (environ : gmap string string)
        (key : string) (n defaultValue : Z) (junk : string) :
  min_int64 <= n <= max_int64 → Atoi junk = None →
  getEnvInt (<[key := Itoa n]> environ) key defaultValue = n
  ∧ MaxConcurrent (Load (<["MAX_CONCURRENT" := Itoa n]> environ)) = n
  ∧ RateLimitRPM (Load (<["RATE_LIMIT_RPM" := Itoa n]> environ)) = n
  ∧ getEnvInt (<[key := junk]> environ) key defaultValue = defaultValue.
Proof.
  intros Hn Hjunk.
  assert (Hint : ∀ k d, getEnvInt (<[k := Itoa n]> environ) k d = n).
  { intros k d. unfold getEnvInt, Getenv. rewrite lookup_insert_eq. simpl.
    pose proof (Itoa_nonempty n) as Hne. apply String.eqb_neq in Hne.
    rewrite Hne. simpl. rewrite Atoi_Itoa_gen.
    destruct (Z.leb_spec min_int64 n); [|lia].
    destruct (Z.leb_spec n max_int64); [done|lia]. }
  split; [apply Hint|]. split; [apply Hint|]. split; [apply Hint|].
  unfold getEnvInt, Getenv. rewrite lookup_insert_eq. simpl.
  rewrite Hjunk. by destruct (negb _).
Qed.

Lemma getEnvInt_accepts_any_int64_witness :
  min_int64 <= -1 <= max_int64 ∧ Atoi "three" = None
  ∧ MaxConcurrent (Load (<["MAX_CONCURRENT" := "-1"]> ∅)) = -1
  ∧ getEnvInt (<["MAX_CONCURRENT" := "three"]> ∅) "MAX_CONCURRENT" 3 = 3.
Proof.
  assert (Hn : min_int64 <= -1 <= max_int64)
    by (vm_compute; split; discriminate).
  split; [exact Hn|]. split; [reflexivity|].
  destruct (getEnvInt_accepts_any_int64 ∅ "MAX_CONCURRENT" (-1) 3 "three"
              Hn eq_refl) as (_ & Hmax & _ & Hjunk).
  split; [exact Hmax | exact Hjunk].
Defined.

(** X22: the boolean setting understands the twelve spellings of
    [strconv.ParseBool] and nothing else: 1, t, T, TRUE, true, True switch
    it on, 0, f, F, FALSE, false, False switch it off, and any other text
    (yes, on, a padded true) leaves the default. *)
Theorem getEnvBool_spellings (environ : gmap string string) (key : string)
        (defaultValue : bool) :
  (In (Getenv environ key) ["1"; "t"; "T"; "TRUE"; "true"; "True"] →
   getEnvBool environ key defaultValue = true)
  ∧ (In (Getenv environ key) ["0"; "f"; "F"; "FALSE"; "false"; "False"] →
     getEnvBool environ key defaultValue = false)
  ∧ (¬ In (Getenv environ key)
          ["1"; "t"; "T"; "TRUE"; "true"; "True";
           "0"; "f"; "F"; "FALSE"; "false"; "False"] →
     getEnvBool environ key defaultValue = defaultValue).
Proof.
  unfold getEnvBool. set (v := Getenv environ key). split; [|split].
  - simpl. intros [<-|[<-|[<-|[<-|[<-|[<-|[]]]]]]]; reflexivity.
  - simpl. intros [<-|[<-|[<-|[<-|[<-|[<-|[]]]]]]]; reflexivity.
  - simpl. intros Hnot. destruct (negb (String.eqb v "")); [|done].
    unfold ParseBool.
    repeat match goal with
           | |- context [String.eqb v ?x] =>
               let E := fresh "E" in
               destruct (String.eqb_spec v x) as [E|E];
               [exfalso; apply Hnot; rewrite E; tauto|]
           end.
    reflexivity.
Qed.

Lemma getEnvBool_spellings_witness :
  ¬ In (Getenv (<["AUTH_REQUIRED" := "yes"]> ∅) "AUTH_REQUIRED")
       ["1"; "t"; "T"; "TRUE"; "true"; "True";
        "0"; "f"; "F"; "FALSE"; "false"; "False"]
  ∧ AuthRequired (Load (<["AUTH_REQUIRED" := "yes"]> ∅)) = false.
Proof.
  assert (Hnot : ¬ In (Getenv (<["AUTH_REQUIRED" := "yes"]> ∅)
                              "AUTH_REQUIRED")
                      ["1"; "t"; "T"; "TRUE"; "true"; "True";
                       "0"; "f"; "F"; "FALSE"; "false"; "False"]).
  { vm_compute. intros H.
    repeat (destruct H as [H|H]; try discriminate). exact H. }
  split; [exact Hnot|].
  exact (proj2 (proj2 (getEnvBool_spellings
                         (<["AUTH_REQUIRED" := "yes"]> ∅) "AUTH_REQUIRED"
                         false)) Hnot).
Defined.

(** ** URL validator *)

Import Validator.

Lemma foldOrbit_self (c : ascii) : In (String c EmptyString) (foldOrbit c).
Proof.
  destruct c as [[] [] [] [] [] [] [] []]; vm_compute; tauto.
Qed.

Lemma HasPrefix_nil (s : string) : HasPrefix s "" = true.
Proof. by destruct s. Qed.

Lemma matchHere_self (pat post : string) :
  matchHere pat (pat +:+ post) = true.
Proof.
  induction pat as [|c pat IH]; [done|].
  change (String c pat +:+ post) with (String c (pat +:+ post)).
  cbn [matchHere]. apply existsb_exists.
  exists (String c EmptyString). split; [apply foldOrbit_self|].
  simpl. rewrite Ascii.eqb_refl, HasPrefix_nil. simpl. exact IH.
Qed.

Lemma containsFold_infix (pre pat post : string) :
  containsFold (pre +:+ pat +:+ post) pat = true.
Proof.
  induction pre as [|c pre IH].
  - simpl. destruct (pat +:+ post) eqn:E; simpl;
      rewrite <- E, matchHere_self; done.
  - change (String c pre +:+ pat +:+ post)
      with (String c (pre +:+ pat +:+ post)).
    cbn [containsFold]. rewrite IH. by destruct (matchHere _ _).
Qed.

Lemma find_permutation_none {A} (p : A → bool) (l l' : list A) :
  l ≡ₚ l' → List.find p l = None → List.find p l' = None.
Proof.
  intros Hperm. rewrite !find_none_iff. intros H x Hx. apply H.
  by rewrite Hperm.
Qed.

(** X23: what [ValidateURL] answers, whatever order the map of patterns is
    visited in: the error "invalid URL" exactly when the trimmed text does
    not parse or has no host; the error "unsupported platform" exactly when
    the host matches none of the three patterns; otherwise no error and a
    platform whose pattern matches the host.  With an error the platform is
    "unknown". *)
Theorem ValidateURL_outcome (TrimSpace : string → string)
        (Parse : string → option string) (order : list Platform)
        (rawURL : string) :
  order ≡ₚ platformKeys →
  ((ValidateURL TrimSpace Parse order rawURL).2 = Some ErrInvalidURL
   ↔ Parse (TrimSpace rawURL) = None ∨ Parse (TrimSpace rawURL) = Some "")
  ∧ ((ValidateURL TrimSpace Parse order rawURL).2 = Some ErrUnsupportedURL
     ↔ ∃ host, Parse (TrimSpace rawURL) = Some host ∧ host ≠ ""
               ∧ ∀ p, p ∈ platformKeys → MatchString p host = false)
  ∧ ((ValidateURL TrimSpace Parse order rawURL).2 = None →
     (ValidateURL TrimSpace Parse order rawURL).1 ∈ platformKeys
     ∧ ∃ host, Parse (TrimSpace rawURL) = Some host ∧ host ≠ ""
               ∧ MatchString (ValidateURL TrimSpace Parse order rawURL).1
                             host = true)
  ∧ ((ValidateURL TrimSpace Parse order rawURL).2 ≠ None →
     (ValidateURL TrimSpace Parse order rawURL).1 = PlatformUnknown).
Proof.
  intros Hperm. unfold ValidateURL.
  destruct (Parse (TrimSpace rawURL)) as [host|]; simpl.
  2: { split; [split; auto|]. split; [split; [done|]|by split].
       by intros (? & ? & _). }
  destruct (String.eqb_spec host "") as [->|Hhost]; simpl.
  { split; [split; auto|]. split; [split; [done|]|by split].
    intros (? & [= <-] & ? & _). done. }
  destruct (List.find (λ p, MatchString p host) order) as [p|] eqn:Hfind;
    simpl.
  - destruct (find_some_elem _ _ _ Hfind) as [Hp Hm].
    split; [split; [done|]|].
    { intros [?|[= ?]]; done. }
    split; [split; [done|]|].
    { intros (h & [= <-] & _ & Hnone). rewrite Hperm in Hp.
      rewrite (Hnone p Hp) in Hm. done. }
    split; [|done]. intros _. split; [by rewrite <- Hperm|]. eauto.
  - split; [split; [done|]|].
    { intros [?|[= ?]]; done. }
    split; [|by split].
    split; [|done]. intros _. exists host. split; [done|]. split; [done|].
    intros p Hp. rewrite <- Hperm in Hp.
    by apply (proj1 (find_none_iff _ _) Hfind).
Qed.

Lemma ValidateURL_outcome_witness :
  platformKeys ≡ₚ platformKeys
  ∧ (ValidateURL (λ s, s) Some platformKeys "www.youtube.com").2 = None
  ∧ (ValidateURL (λ s, s) Some platformKeys "www.youtube.com").1
    ∈ platformKeys.
Proof.
  assert (Hperm : platformKeys ≡ₚ platformKeys) by reflexivity.
  split; [exact Hperm|]. split; [reflexivity|].
  refine (proj1 (proj1 (proj2 (proj2 (ValidateURL_outcome
            (λ s, s) Some platformKeys "www.youtube.com" Hperm))) _)).
  reflexivity.
Defined.

(** X24: the platform reported is independent of the order of the visit
    as long as the host matches the pattern of a single platform; a host
    that matches two patterns is reported under either platform, depending
    on the order. *)
Theorem ValidateURL_order (TrimSpace : string → string)
        (Parse : string → option string) (order order' : list Platform)
        (rawURL : string) :
  order ≡ₚ platformKeys → order' ≡ₚ platformKeys →
  ((∀ host p q, Parse (TrimSpace rawURL) = Some host →
       p ∈ platformKeys → q ∈ platformKeys →
       MatchString p host = true → MatchString q host = true → p = q) →
   ValidateURL TrimSpace Parse order rawURL
   = ValidateURL TrimSpace Parse order' rawURL)
  ∧ ValidateURL (λ s, s) Some
      [PlatformYouTube; PlatformInstagram; PlatformTikTok]
      "youtube.com.tiktok.com"
    ≠ ValidateURL (λ s, s) Some
        [PlatformTikTok; PlatformYouTube; PlatformInstagram]
        "youtube.com.tiktok.com".
Proof.
  intros Hperm Hperm'. split; [|by vm_compute].
  intros Huniq. unfold ValidateURL.
  destruct (Parse (TrimSpace rawURL)) as [host|]; [|done].
  destruct (String.eqb host ""); [done|].
  destruct (List.find (λ p, MatchString p host) order) as [p|] eqn:Hfind;
    destruct (List.find (λ p, MatchString p host) order') as [q|] eqn:Hfind'.
  - destruct (find_some_elem _ _ _ Hfind) as [Hp Hmp].
    destruct (find_some_elem _ _ _ Hfind') as [Hq Hmq].
    rewrite Hperm in Hp. rewrite Hperm' in Hq.
    by rewrite (Huniq host p q eq_refl Hp Hq Hmp Hmq).
  - destruct (find_some_elem _ _ _ Hfind) as [Hp Hmp].
    rewrite Hperm in Hp. rewrite <- Hperm' in Hp.
    rewrite (proj1 (find_none_iff _ _) Hfind' p Hp) in Hmp. done.
  - destruct (find_some_elem _ _ _ Hfind') as [Hq Hmq].
    rewrite Hperm' in Hq. rewrite <- Hperm in Hq.
    rewrite (proj1 (find_none_iff _ _) Hfind q Hq) in Hmq. done.
  - done.
Qed.

(** X25: the patterns are not anchored: a host that holds one of the seven
    literals anywhere (before a foreign suffix, after a foreign prefix) is
    accepted as a supported platform, whatever the order of the visit. *)
Theorem ValidateURL_accepts_substring (TrimSpace : string → string)
        (Parse : string → option string) (order : list Platform)
        (rawURL pre lit post : string) :
  order ≡ₚ platformKeys →
  In lit ["youtube.com"; "youtu.be"; "music.youtube.com"; "instagram.com";
          "instagr.am"; "tiktok.com"; "vm.tiktok.com"] →
  Parse (TrimSpace rawURL) = Some (pre +:+ lit +:+ post) →
  (ValidateURL TrimSpace Parse order rawURL).2 = None
  ∧ (ValidateURL TrimSpace Parse order rawURL).1 ≠ PlatformUnknown.
Proof.
  intros Hperm Hlit Hparse. unfold ValidateURL. rewrite Hparse.
  assert (Hne : pre +:+ lit +:+ post ≠ "").
  { intros H. apply (f_equal String.length) in H.
    rewrite !string_app_length in H. simpl in H.
    repeat (destruct Hlit as [<-|Hlit]; [simpl in H; lia|]). done. }
  apply String.eqb_neq in Hne. rewrite Hne.
  assert (Hm : ∃ p, p ∈ platformKeys
                    ∧ MatchString p (pre +:+ lit +:+ post) = true).
  { assert (Hc := containsFold_infix pre lit post).
    simpl in Hlit.
    destruct Hlit as [<-|[<-|[<-|[<-|[<-|[<-|[<-|[]]]]]]]];
      [exists PlatformYouTube | exists PlatformYouTube
       | exists PlatformYouTube | exists PlatformInstagram
       | exists PlatformInstagram | exists PlatformTikTok
       | exists PlatformTikTok];
      (split; [apply list_elem_of_In; simpl; tauto|]);
      unfold MatchString; apply existsb_exists; eexists; (split; [|exact Hc]);
      simpl; tauto. }
  destruct Hm as (p & Hp & Hmp).
  destruct (List.find (λ p, MatchString p (pre +:+ lit +:+ post)) order)
    as [q|] eqn:Hfind.
  - simpl. split; [done|].
    destruct (find_some_elem _ _ _ Hfind) as [Hq _].
    rewrite Hperm in Hq. intros ->.
    apply list_elem_of_In in Hq. simpl in Hq.
    repeat (destruct Hq as [Hq|Hq]; try discriminate). done.
  - rewrite <- Hperm in Hp.
    rewrite (proj1 (find_none_iff _ _) Hfind p Hp) in Hmp. done.
Qed.

Lemma ValidateURL_accepts_substring_witness :
  platformKeys ≡ₚ platformKeys
  ∧ Some "youtube.com.evil.example"
    = Some ("" +:+ "youtube.com" +:+ ".evil.example")
  ∧ (ValidateURL (λ s, s) Some platformKeys "youtube.com.evil.example").2
    = None.
Proof.
  assert (Hperm : platformKeys ≡ₚ platformKeys) by reflexivity.
  split; [exact Hperm|]. split; [reflexivity|].
  refine (proj1 (ValidateURL_accepts_substring
                   (λ s, s) Some platformKeys "youtube.com.evil.example"
                   "" "youtube.com" ".evil.example" Hperm _ eq_refl)).
  simpl. tauto.
Defined.

Lemma ValidateURL_order_witness :
  platformKeys ≡ₚ platformKeys
  ∧ [PlatformTikTok; PlatformInstagram; PlatformYouTube] ≡ₚ platformKeys
  ∧ ValidateURL (λ s, s) Some platformKeys "youtu.be"
    = ValidateURL (λ s, s) Some
        [PlatformTikTok; PlatformInstagram; PlatformYouTube] "youtu.be".
Proof.
  assert (Hperm : platformKeys ≡ₚ platformKeys) by reflexivity.
  assert (Hperm' : [PlatformTikTok; PlatformInstagram; PlatformYouTube]
                   ≡ₚ platformKeys).
  { unfold platformKeys.
    apply (Permutation_rev [PlatformTikTok; PlatformInstagram;
                            PlatformYouTube]). }
  split; [exact Hperm|]. split; [exact Hperm'|].
  apply (proj1 (ValidateURL_order (λ s, s) Some _ _ "youtu.be" Hperm Hperm')).
  intros host p q [= <-] Hp Hq Hmp Hmq.
  apply list_elem_of_In in Hp, Hq. simpl in Hp, Hq.
  destruct Hp as [<-|[<-|[<-|[]]]]; destruct Hq as [<-|[<-|[<-|[]]]];
    try reflexivity; vm_compute in Hmp; vm_compute in Hmq; discriminate.
Defined.

(** ** Analysis *)

Lemma tierOffers_length (res : Z) (bestAudio : option Format)
      (formats : list Format) :
  (length (tierOffers res bestAudio formats) ≤ 2)%nat.
Proof.
  unfold tierOffers. destruct (List.find _ _); [|simpl; lia].
  destruct bestAudio; simpl; lia.
Qed.

Lemma GetBestFormats_length (formats : list Format) :
  (length (GetBestFormats formats) ≤ 9)%nat.
Proof.
  rewrite GetBestFormats_closed_form, !length_app.
  pose proof (tierOffers_length 360 (findBestAudio formats) formats).
  pose proof (tierOffers_length 480 (findBestAudio formats) formats).
  pose proof (tierOffers_length 720 (findBestAudio formats) formats).
  pose proof (tierOffers_length 1080 (findBestAudio formats) formats).
  destruct (findBestAudio formats); simpl; lia.
Qed.

(** X26: the formats of a successful analysis: the answer 200 carries the
    curated list of the normalized formats of the record that yt-dlp
    printed, or the normalized formats themselves when the curated list is
    empty; so the formats of the answer are empty exactly when no raw
    encoding survives the normalizer, and they are never more than the
    larger of nine and the number of raw encodings. *)
Theorem AnalyzeHandler_formats (Decode : string → option string)
        (w : Analyzer.world) (ytdlpPath : string) (r : Analyzer.Request)
        (resp : Analyzer.AnalyzeResponse) :
  Analyzer.encoded (Analyzer.ServeHTTP Decode w ytdlpPath r)
  = Analyzer.Analysis resp →
  Analyzer.status (Analyzer.ServeHTTP Decode w ytdlpPath r) = 200
  ∧ ∃ url output info,
      Decode (Analyzer.Body r) = Some url ∧ url ≠ ""
      ∧ (Analyzer.Validate w url).2 = None
      ∧ Analyzer.Output w ytdlpPath
          ["--dump-json"; "--no-download"; "--no-warnings";
           "--no-playlist"; url]
        = Orchestrator.CmdOk output
      ∧ Analyzer.Unmarshal w output = inl info
      ∧ Analyzer.respFormats resp
        = match GetBestFormats (parseFormats (Analyzer.ytFormats info)) with
          | [] => parseFormats (Analyzer.ytFormats info)
          | _ => GetBestFormats (parseFormats (Analyzer.ytFormats info))
          end
      ∧ (Analyzer.respFormats resp = []
         ↔ parseFormats (Analyzer.ytFormats info) = [])
      ∧ (length (Analyzer.respFormats resp)
         ≤ Nat.max 9 (length (Analyzer.ytFormats info)))%nat.
Proof.
  unfold Analyzer.ServeHTTP.
  destruct (negb (String.eqb (Analyzer.Method r) "POST")); [done|].
  destruct (Decode (Analyzer.Body r)) as [url|]; [|done].
  destruct (String.eqb_spec url "") as [|Hurl]; [done|].
  unfold Analyzer.Analyze.
  destruct (Analyzer.Validate w url) as [platform [[]|]] eqn:Hv; try done.
  destruct (Analyzer.Output w ytdlpPath _) as [output| |] eqn:Hout; try done.
  destruct (Analyzer.Unmarshal w output) as [info|] eqn:Hun; [|done].
  simpl. intros [= <-]. split; [done|].
  exists url, output, info. rewrite Hv. repeat (split; [done|]). simpl.
  set (l := parseFormats (Analyzer.ytFormats info)).
  pose proof (GetBestFormats_length l) as Hlen.
  assert (Hl : (length l ≤ length (Analyzer.ytFormats info))%nat).
  { subst l. rewrite parseFormats_keep_first.
    etrans; [apply sublist_length, keep_first_sublist|].
    apply omap_length_le. }
  destruct (GetBestFormats l) as [|o rest] eqn:Hbest.
  - split; [done|]. lia.
  - split; [|simpl in *; lia]. split; [done|].
    intros Hnil. rewrite Hnil in Hbest. discriminate.
Qed.

(** X27: the answers of the analysis handler: the status is 405 exactly
    for a method other than POST; it is one of 200, 400, 405 and 500; an
    error body is one of six fixed messages, so no text of the subprocess
    or of the JSON decoder reaches the client; and the status is 500 only
    when the URL passed the validator. *)
Theorem AnalyzeHandler_statuses (Decode : string → option string)
        (w : Analyzer.world) (ytdlpPath : string) (r : Analyzer.Request) :
  (Analyzer.status (Analyzer.ServeHTTP Decode w ytdlpPath r) = 405
   ↔ Analyzer.Method r ≠ "POST")
  ∧ In (Analyzer.status (Analyzer.ServeHTTP Decode w ytdlpPath r))
       [200; 400; 405; 500]
  ∧ (∀ msg,
        Analyzer.encoded (Analyzer.ServeHTTP Decode w ytdlpPath r)
        = Analyzer.ErrorResponse msg →
        Analyzer.status (Analyzer.ServeHTTP Decode w ytdlpPath r) ≠ 200
        ∧ In msg
             ["Method not allowed"; "Invalid request body";
              "URL is required"; "Invalid URL format";
              "Unsupported platform. Supported: YouTube, Instagram, TikTok";
              "Failed to analyze video. Please check the URL and try again."])
  ∧ (Analyzer.status (Analyzer.ServeHTTP Decode w ytdlpPath r) = 500 →
     ∃ url, Decode (Analyzer.Body r) = Some url ∧ url ≠ ""
            ∧ (Analyzer.Validate w url).2 = None).
Proof.
  unfold Analyzer.ServeHTTP.
  destruct (String.eqb_spec (Analyzer.Method r) "POST") as [Hm|Hm]; simpl.
  2: { split; [done|]. split; [tauto|]. split; [|done].
       intros msg [= <-]. split; [done | tauto]. }
  destruct (Decode (Analyzer.Body r)) as [url|]; simpl.
  2: { split; [split; done|]. split; [tauto|]. split; [|done].
       intros msg [= <-]. split; [done | tauto]. }
  destruct (String.eqb_spec url "") as [|Hurl]; simpl.
  { split; [split; done|]. split; [tauto|]. split; [|done].
    intros msg [= <-]. split; [done | tauto]. }
  unfold Analyzer.Analyze.
  destruct (Analyzer.Validate w url) as [platform [[]|]] eqn:Hv; simpl.
  1,2: split; [split; done|]; (split; [tauto|]); (split; [|done]);
       intros msg [= <-]; (split; [done | tauto]).
  destruct (Analyzer.Output w ytdlpPath _) as [output|stderr|failure]; simpl.
  2,3: split; [split; done|]; (split; [tauto|]);
       (split; [intros msg [= <-]; (split; [done | tauto])|]);
       intros _; exists url; rewrite Hv; done.
  destruct (Analyzer.Unmarshal w output) as [info|failure]; simpl.
  - split; [split; done|]. split; [tauto|]. split; [done|done].
  - split; [split; done|]. split; [tauto|].
    split; [intros msg [= <-]; (split; [done | tauto])|].
    intros _. exists url. rewrite Hv. done.
Qed.

Lemma AnalyzeHandler_formats_witness :
  ∃ resp,
    Analyzer.encoded
      (Analyzer.ServeHTTP Some sampleAnalyzerWorld "yt-dlp"
                          sampleAnalyzeRequest)
    = Analyzer.Analysis resp
    ∧ Analyzer.status
        (Analyzer.ServeHTTP Some sampleAnalyzerWorld "yt-dlp"
                            sampleAnalyzeRequest) = 200
    ∧ length (Analyzer.respFormats resp) = 3%nat.
Proof.
  eexists. split; [vm_compute; reflexivity|]. split.
  - refine (proj1 (AnalyzeHandler_formats Some sampleAnalyzerWorld "yt-dlp"
                     sampleAnalyzeRequest _ _)).
    vm_compute. reflexivity.
  - reflexivity.
Defined.

Lemma AnalyzeHandler_statuses_witness :
  Analyzer.Method {| Analyzer.Method := "GET"; Analyzer.Body := "" |} ≠ "POST"
  ∧ Analyzer.status
      (Analyzer.ServeHTTP Some sampleAnalyzerWorld "yt-dlp"
         {| Analyzer.Method := "GET"; Analyzer.Body := "" |}) = 405.
Proof.
  assert (Hm : Analyzer.Method {| Analyzer.Method := "GET";
                                  Analyzer.Body := "" |} ≠ "POST")
    by discriminate.
  split; [exact Hm|].
  exact (proj2 (proj1 (AnalyzeHandler_statuses Some sampleAnalyzerWorld
                         "yt-dlp" {| Analyzer.Method := "GET";
                                     Analyzer.Body := "" |})) Hm).
Defined.

(** X28: a URL the validator rejects never reaches yt-dlp: [Analyze]
    returns the error of the validator, and the result is the same
    whatever the subprocess, the JSON decoder and the number conversion
    would do. *)
Theorem Analyze_rejects_before_subprocess (w w' : Analyzer.world)
        (ytdlpPath url : string) :
  Analyzer.Validate w' url = Analyzer.Validate w url →
  (Analyzer.Validate w url).2 ≠ None →
  Analyzer.Analyze w' ytdlpPath url = Analyzer.Analyze w ytdlpPath url
  ∧ ((Analyzer.Validate w url).2 = Some ErrInvalidURL →
     Analyzer.Analyze w ytdlpPath url = inr Analyzer.InvalidURL)
  ∧ ((Analyzer.Validate w url).2 = Some ErrUnsupportedURL →
     Analyzer.Analyze w ytdlpPath url = inr Analyzer.UnsupportedURL).
Proof.
  intros Hsame Hbad. unfold Analyzer.Analyze. rewrite Hsame.
  destruct (Analyzer.Validate w url) as [platform [[]|]]; simpl in *; done.
Qed.

Lemma Analyze_rejects_before_subprocess_witness :
  let w' := {| Analyzer.Validate := Analyzer.Validate sampleAnalyzerWorld;
               Analyzer.Output := λ _ _, Orchestrator.CmdOtherError "no";
               Analyzer.Unmarshal := λ _, inr "no";
               Analyzer.toInt := λ _, 0 |} in
  (Analyzer.Validate sampleAnalyzerWorld "example.org").2
  = Some ErrUnsupportedURL
  ∧ Analyzer.Analyze w' "yt-dlp" "example.org"
    = Analyzer.Analyze sampleAnalyzerWorld "yt-dlp" "example.org"
  ∧ Analyzer.Analyze sampleAnalyzerWorld "yt-dlp" "example.org"
    = inr Analyzer.UnsupportedURL.
Proof.
  intros w'.
  assert (Hv : (Analyzer.Validate sampleAnalyzerWorld "example.org").2
               = Some ErrUnsupportedURL) by (vm_compute; reflexivity).
  split; [exact Hv|].
  destruct (Analyze_rejects_before_subprocess sampleAnalyzerWorld w'
              "yt-dlp" "example.org" eq_refl) as (Hsame & _ & Hunsup).
  - vm_compute. discriminate.
  - split; [exact Hsame | exact (Hunsup Hv)].
Defined.

(** ** File name without download *)

Lemma Split_nonempty (s : string) (sep : ascii) : Filename.Split s sep ≠ [].
Proof.
  destruct s as [|c s]; simpl; [done|].
  destruct (Ascii.eqb c sep); [done|]. by destruct (Filename.Split s sep).
Qed.

Lemma Split_app_sep (s t : string) (sep : ascii) :
  Filename.Split (s +:+ String sep t) sep
  = Filename.Split s sep ++ Filename.Split t sep.
Proof.
  induction s as [|c s IH]; simpl.
  - by rewrite Ascii.eqb_refl.
  - destruct (Ascii.eqb c sep); [by rewrite IH|].
    rewrite IH. pose proof (Split_nonempty s sep).
    by destruct (Filename.Split s sep).
Qed.

Lemma Split_no_sep (s : string) (sep : ascii) :
  ContainsByte s sep = false → Filename.Split s sep = [s].
Proof.
  induction s as [|c s IH]; simpl; [done|].
  intros [Hc Hs]%orb_false_elim. by rewrite Hc, (IH Hs).
Qed.

Lemma Split_head_clean (s : string) (sep : ascii) (first : string)
      (rest : list string) :
  Filename.Split s sep = first :: rest → ContainsByte first sep = false.
Proof.
  revert first rest. induction s as [|c s IH]; intros first rest; simpl.
  - by intros [= <- <-].
  - destruct (Ascii.eqb c sep) eqn:Hc; [by intros [= <- <-]|].
    destruct (Filename.Split s sep) as [|hd tl] eqn:Hs.
    + intros [= <- <-]. simpl. by rewrite Hc.
    + intros [= <- <-]. simpl. rewrite Hc. by apply (IH hd tl).
Qed.

Lemma Join_Split (s : string) (sep : ascii) :
  Filename.Join (Filename.Split s sep) (String sep "") = s.
Proof.
  induction s as [|c s IH]; simpl; [done|].
  destruct (Ascii.eqb_spec c sep) as [->|Hc].
  - pose proof (Split_nonempty s sep).
    destruct (Filename.Split s sep) as [|hd tl] eqn:Hs; [done|].
    change (Filename.Join ("" :: hd :: tl) (String sep ""))
      with (String sep (Filename.Join (hd :: tl) (String sep ""))).
    by rewrite IH.
  - destruct (Filename.Split s sep) as [|hd tl] eqn:Hs.
    + by destruct (Split_nonempty s sep).
    + destruct tl as [|hd2 tl]; simpl in *; by rewrite <- IH.
Qed.

Lemma string_app_assoc_r (a b c : string) :
  (a +:+ b) +:+ c = a +:+ (b +:+ c).
Proof. induction a as [|x a IH]; simpl; [done | by rewrite IH]. Qed.

Lemma Join_snoc (l : list string) (v sep : string) :
  l ≠ [] → Filename.Join (l ++ [v]) sep = Filename.Join l sep +:+ sep +:+ v.
Proof.
  induction l as [|x l IH]; [done|]. intros _.
  destruct l as [|y l].
  - reflexivity.
  - change (Filename.Join ((x :: y :: l) ++ [v]) sep)
      with (x +:+ sep +:+ Filename.Join ((y :: l) ++ [v]) sep).
    rewrite IH by done.
    change (Filename.Join (x :: y :: l) sep)
      with (x +:+ sep +:+ Filename.Join (y :: l) sep).
    by rewrite !string_app_assoc_r.
Qed.

Lemma setLast_snoc (l : list string) (x v : string) :
  Filename.setLast (l ++ [x]) v = l ++ [v].
Proof.
  unfold Filename.setLast. rewrite length_app. simpl.
  replace (Nat.pred (length l + 1)) with (length l + 0)%nat by lia.
  rewrite insert_app_r. done.
Qed.

(** X29: [GetFilename] asks yt-dlp, with the option -f, about the part of
    the format identifier before its first "+" (the whole identifier when it
    has none): that part holds no "+", and the result depends on the answer
    of the subprocess to exactly these arguments.  An error of the
    subprocess is returned as an error.  For a merged format whose printed
    name does not end in ".mp4", the text after the last dot of the name is
    replaced by "mp4", and a name that has no dot at all is returned as it
    is, without extension; in every other case the trimmed name is returned
    unchanged. *)
Theorem GetFilename_merged_extension
        (Output : list string → string + string)
        (TrimSpace : string → string) (url formatID base : string)
        (rest : list string) :
  Filename.Split formatID "+" = base :: rest →
  ContainsByte base "+" = false
  ∧ formatID = Filename.Join (base :: rest) "+"
  ∧ (∀ e,
        Output ["--get-filename"; "-f"; base; "-o"; "%(title)s.%(ext)s";
                "--no-warnings"; url] = inr e →
        Filename.GetFilename Output TrimSpace url formatID
        = inr ("failed to get filename: " +:+ e))
  ∧ (∀ output,
        Output ["--get-filename"; "-f"; base; "-o"; "%(title)s.%(ext)s";
                "--no-warnings"; url] = inl output →
        (ContainsByte formatID "+" = false
         ∨ HasSuffix (TrimSpace output) ".mp4" = true →
         Filename.GetFilename Output TrimSpace url formatID
         = inl (TrimSpace output))
        ∧ (ContainsByte formatID "+" = true →
           HasSuffix (TrimSpace output) ".mp4" = false →
           (∀ stem ext, TrimSpace output = stem +:+ "." +:+ ext →
                        ContainsByte ext "." = false →
                        Filename.GetFilename Output TrimSpace url formatID
                        = inl (stem +:+ ".mp4"))
           ∧ (ContainsByte (TrimSpace output) "." = false →
              Filename.GetFilename Output TrimSpace url formatID
              = inl (TrimSpace output)))).
Proof.
  intros Hsplit.
  assert (Hbase : (if ContainsByte formatID "+"
                   then match Filename.Split formatID "+" with
                        | first :: _ => first
                        | [] => formatID
                        end
                   else formatID) = base).
  { destruct (ContainsByte formatID "+") eqn:Hplus; [by rewrite Hsplit|].
    rewrite (Split_no_sep _ _ Hplus) in Hsplit. by injection Hsplit. }
  split; [by apply (Split_head_clean formatID "+" base rest)|].
  split.
  { rewrite <- Hsplit. symmetry. apply Join_Split. }
  split.
  - intros e He. unfold Filename.GetFilename. by rewrite Hbase, He.
  - intros output Hout. split.
    + intros Hcase. unfold Filename.GetFilename. rewrite Hbase, Hout.
      destruct Hcase as [-> | ->]; [done|].
      by rewrite andb_false_r.
    + intros Hplus Hsuffix. unfold Filename.GetFilename.
      rewrite Hbase, Hout, Hplus, Hsuffix. simpl. split.
      * intros stem ext -> Hext.
        change (stem +:+ "." +:+ ext) with (stem +:+ String "." ext).
        rewrite Split_app_sep, (Split_no_sep ext) by done.
        pose proof (Split_nonempty stem ".") as Hne.
        assert ((1 <? length (Filename.Split stem "." ++ [ext]))%nat = true)
          as ->.
        { apply Nat.ltb_lt. rewrite length_app. simpl.
          destruct (Filename.Split stem "."); [done | simpl; lia]. }
        rewrite setLast_snoc, Join_snoc by done.
        change (String "." "") with ".". by rewrite Join_Split.
      * intros Hno. rewrite (Split_no_sep _ _ Hno). done.
Qed.

Lemma GetFilename_merged_extension_witness :
  Filename.Split "137+251" "+" = ["137"; "251"]
  ∧ ContainsByte "137+251" "+" = true
  ∧ HasSuffix "my.clip.webm" ".mp4" = false
  ∧ Filename.GetFilename
      (λ args, if decide (args = ["--get-filename"; "-f"; "137"; "-o";
                                  "%(title)s.%(ext)s"; "--no-warnings";
                                  "https://youtu.be/abc"])
               then inl "my.clip.webm" else inr "unknown format")
      (λ s, s) "https://youtu.be/abc" "137+251"
    = inl "my.clip.mp4".
Proof.
  split; [reflexivity|]. split; [reflexivity|]. split; [reflexivity|].
  destruct (GetFilename_merged_extension
              (λ args, if decide (args = ["--get-filename"; "-f"; "137"; "-o";
                                          "%(title)s.%(ext)s"; "--no-warnings";
                                          "https://youtu.be/abc"])
                       then inl "my.clip.webm" else inr "unknown format")
              (λ s, s) "https://youtu.be/abc" "137+251" "137" ["251"]
              eq_refl) as (_ & _ & _ & Hok).
  destruct (Hok "my.clip.webm" eq_refl) as [_ Hmerged].
  destruct (Hmerged eq_refl eq_refl) as [Hext _].
  exact (Hext "my.clip" "webm" eq_refl eq_refl).
Defined.
